(** * ng2-chess: the SVG chess board component

    A shallow embedding of [SVGChessBoard]
    (plugins/ui/dom-svg-board/svg-chess-board/svg-chess-board.component.ts):
    the drag-and-drop controller that turns mouse and touch input into move
    requests and keeps the piece and block components paired with the
    logical board.

    JavaScript objects are kept in stores indexed by reference, so that
    aliasing ([dragPiece] and the entries of the [pieces] query list name
    the same component) is visible.  Numbers are IEEE binary64 floats, as in
    JavaScript.  A [TypeError] (reading a property of [undefined]) is a
    result of its own; the state an exception leaves behind is not kept. *)

From Stdlib Require Import ZArith List Bool String Lia PeanoNat.
From Stdlib Require Import Floats.PrimFloat.
Import ListNotations.

Set Implicit Arguments.

(** ** JavaScript numbers and truthiness *)

Definition number := float.

(** A number is falsy when it is [0], [-0] or [NaN]. *)
Definition falsy (n : number) : bool :=
  (PrimFloat.eqb n 0%float || negb (PrimFloat.eqb n n))%bool.

(** ** Results: a value, or a thrown TypeError *)

Inductive result (A : Type) : Type :=
| Ok (a : A)
| TypeError.

Arguments Ok {A} a.
Arguments TypeError {A}.

Definition bind {A B : Type} (r : result A) (k : A -> result B) : result B :=
  match r with
  | Ok a => k a
  | TypeError => TypeError
  end.

Notation "x <- r ;; k" := (bind r (fun x => k))
  (at level 61, r at next level, right associativity).

(** Reading through a reference that may be [undefined]. *)
Definition defined {A : Type} (o : option A) : result A :=
  match o with
  | Some a => Ok a
  | None => TypeError
  end.

(** [arr[i]] for a number [i]: [undefined] outside the array. *)
Definition at_index {A : Type} (arr : list A) (i : Z) : option A :=
  if (i <? 0)%Z then None else nth_error arr (Z.to_nat i).

(** ** Promises *)

Inductive Promise (A : Type) : Type :=
| Promise_resolve (v : A)
| Promise_pending.

Arguments Promise_resolve {A} v.
Arguments Promise_pending {A}.

(** ** The logical model, as the component reads it *)

Inductive PieceColor : Type := WHITE | BLACK.

Inductive PieceType : Type := PAWN | KNIGHT | BISHOP | ROOK | QUEEN | KING.

Inductive GAME_STATE : Type :=
| IN_PROGRESS
| CHECKMATE
| DRAW
| STALEMATE
| THREEFOLD_REPETITION
| INSUFFICIENT_MATERIAL.

Definition PieceColor_eqb (a b : PieceColor) : bool :=
  match a, b with
  | WHITE, WHITE | BLACK, BLACK => true
  | _, _ => false
  end.

(** A logical square: an object (its identity is [ref]) with an [index]. *)
Module Block.
Record t : Type := { ref : nat; index : Z }.
(** [a === b] *)
Definition same (a b : t) : bool := Nat.eqb (ref a) (ref b).
End Block.

(** A logical piece is an object whose [block] the engine reassigns; the
    component holds references to pieces. *)
Definition PieceRef := nat.

Module Piece.
Record t : Type := { color : PieceColor; block : option Block.t }.
End Piece.

(** What the component reads from [ChessEngine]: [turn()], [winner()],
    [pieces], [moves(piece)], and the piece objects themselves. *)
Module ChessEngine.
Record t : Type := {
  turn : PieceColor;
  winner : PieceColor;
  pieces : list PieceRef;
  obj : PieceRef -> Piece.t;
  moves : PieceRef -> list Block.t
}.
End ChessEngine.

(** The result of [ChessBoardController.move]. *)
Module ChessMove.
Record t : Type := { invalid : bool; isCastlingMove : bool }.
End ChessMove.

(** ** The view components *)

Definition PieceCmpRef := nat.
Definition BlockCmpRef := nat.

Module SVGChessPiece.

Record t : Type := {
  piece : PieceRef;
  block : option BlockCmpRef;
  x : number;
  y : number;
  isDragged : bool
}.

(** Modelled from the spec: [SVGChessPiece.dragStart] is not in the
    source; "signals the Piece Visual Handle to enter a lifted visual
    state". *)
Definition dragStart (p : t) : t :=
  {| piece := piece p; block := block p; x := x p; y := y p;
     isDragged := true |}.

(** Modelled from the spec: [SVGChessPiece.setCoordinates] is not in the
    source; "accumulates the delta into the piece's live render offset; has
    no effect on logical board state". *)
Definition setCoordinates (dx dy : number) (p : t) : t :=
  {| piece := piece p; block := block p;
     x := PrimFloat.add (x p) dx; y := PrimFloat.add (y p) dy;
     isDragged := isDragged p |}.

(** Modelled from the spec: [SVGChessPiece.reset] is not in the source; the
    "reset/settle operation parameterized by an animation duration", which
    brings the piece back to the render position of its square. *)
Definition reset (duration : Z) (p : t) : t :=
  {| piece := piece p; block := block p; x := 0%float; y := 0%float;
     isDragged := isDragged p |}.

(** Modelled from the spec: [SVGChessPiece.dragEnd] is not in the source;
    the spec has it "clear the lifted visual state", and the caller's
    comment has it "let the piece set itself inside the block". *)
Definition dragEnd (p : t) : t :=
  {| piece := piece p; block := block p; x := 0%float; y := 0%float;
     isDragged := false |}.

(** The field written by the [block] setter. *)
Definition with_block (b : option BlockCmpRef) (p : t) : t :=
  {| piece := piece p; block := b; x := x p; y := y p;
     isDragged := isDragged p |}.

End SVGChessPiece.

Module SVGChessBlock.

Record t : Type := {
  block : Block.t;
  piece : option PieceCmpRef
}.

Definition with_piece (p : option PieceCmpRef) (b : t) : t :=
  {| block := block b; piece := p |}.

End SVGChessBlock.

(** ** The DOM, as the component reads it *)

Record ClientRect : Type := { left : number; top : number }.

Record ParentNode : Type := { p_clientWidth : number; p_clientHeight : number }.

Record SVGPoint : Type := { pt_x : number; pt_y : number }.

Record SVGSVGElement : Type := {
  clientWidth : number;
  clientHeight : number;
  parentNode : option ParentNode;
  getBoundingClientRect : ClientRect;
  currentScale : number;
  currentTranslate : SVGPoint
}.

Record MouseEvent : Type := {
  pageX : number;
  pageY : number;
  clientX : number;
  clientY : number
}.

Record Touch : Type := {
  t_pageX : number;
  t_pageY : number;
  t_clientX : number;
  t_clientY : number
}.

Record TouchEvent : Type := {
  touches : list Touch;
  changedTouches : list Touch
}.

(** The argument of [dropPiece]: a mouseup or a touchend event. *)
Inductive DropEvent : Type :=
| MouseUp (e : MouseEvent)
| TouchEnd (e : TouchEvent).

(** ** Subscriptions *)

Inductive Source : Type :=
| boardSynced
| stateChanged
| mousedrag
| touchdrag
| mouseup
| touchend.

Record Subscription : Type := { sub_id : nat; sub_source : Source }.

(** A call of [ctrl.move(piece, block)] whose promise is pending. *)
Record MoveRequest : Type := { req_piece : PieceRef; req_block : Block.t }.

Record Banner : Type := { title : string; message : string }.

(** ** The component *)

(** The fields of [SVGChessBoard], followed by what lives outside it: the
    two component stores, the listeners currently attached to the event
    sources, the pending [setTimeout] callbacks (each is [move(piece)]) and
    the pending calls of the move authority. *)
Record SVGChessBoard : Type := {
  engine : ChessEngine.t;
  dragPiece : option PieceCmpRef;
  rxWaste : list Subscription;
  isBusy : bool;
  isDisabled : bool;
  banner : option Banner;
  highlighted : list Block.t;
  boardElRef : SVGSVGElement;
  blocks : list BlockCmpRef;
  pieces : list PieceCmpRef;
  blockCmp : BlockCmpRef -> SVGChessBlock.t;
  pieceCmp : PieceCmpRef -> SVGChessPiece.t;
  listeners : list Subscription;
  nextSub : nat;
  timers : list PieceRef;
  ctrlCalls : list MoveRequest
}.

(** [height] and [width] are defined non-writable with value 600. *)
Definition height : number := 600%float.
Definition width : number := 600%float.

Definition set_engine (v : ChessEngine.t) (s : SVGChessBoard) : SVGChessBoard :=
  Build_SVGChessBoard v (dragPiece s) (rxWaste s) (isBusy s) (isDisabled s)
    (banner s) (highlighted s) (boardElRef s) (blocks s) (pieces s)
    (blockCmp s) (pieceCmp s) (listeners s) (nextSub s) (timers s) (ctrlCalls s).

Definition set_dragPiece (v : option PieceCmpRef) (s : SVGChessBoard) : SVGChessBoard :=
  Build_SVGChessBoard (engine s) v (rxWaste s) (isBusy s) (isDisabled s)
    (banner s) (highlighted s) (boardElRef s) (blocks s) (pieces s)
    (blockCmp s) (pieceCmp s) (listeners s) (nextSub s) (timers s) (ctrlCalls s).

Definition set_rxWaste (v : list Subscription) (s : SVGChessBoard) : SVGChessBoard :=
  Build_SVGChessBoard (engine s) (dragPiece s) v (isBusy s) (isDisabled s)
    (banner s) (highlighted s) (boardElRef s) (blocks s) (pieces s)
    (blockCmp s) (pieceCmp s) (listeners s) (nextSub s) (timers s) (ctrlCalls s).

Definition set_isBusy (v : bool) (s : SVGChessBoard) : SVGChessBoard :=
  Build_SVGChessBoard (engine s) (dragPiece s) (rxWaste s) v (isDisabled s)
    (banner s) (highlighted s) (boardElRef s) (blocks s) (pieces s)
    (blockCmp s) (pieceCmp s) (listeners s) (nextSub s) (timers s) (ctrlCalls s).

Definition set_isDisabled (v : bool) (s : SVGChessBoard) : SVGChessBoard :=
  Build_SVGChessBoard (engine s) (dragPiece s) (rxWaste s) (isBusy s) v
    (banner s) (highlighted s) (boardElRef s) (blocks s) (pieces s)
    (blockCmp s) (pieceCmp s) (listeners s) (nextSub s) (timers s) (ctrlCalls s).

Definition set_banner (v : option Banner) (s : SVGChessBoard) : SVGChessBoard :=
  Build_SVGChessBoard (engine s) (dragPiece s) (rxWaste s) (isBusy s) (isDisabled s)
    v (highlighted s) (boardElRef s) (blocks s) (pieces s)
    (blockCmp s) (pieceCmp s) (listeners s) (nextSub s) (timers s) (ctrlCalls s).

Definition set_highlighted (v : list Block.t) (s : SVGChessBoard) : SVGChessBoard :=
  Build_SVGChessBoard (engine s) (dragPiece s) (rxWaste s) (isBusy s) (isDisabled s)
    (banner s) v (boardElRef s) (blocks s) (pieces s)
    (blockCmp s) (pieceCmp s) (listeners s) (nextSub s) (timers s) (ctrlCalls s).

Definition set_blockCmp (v : BlockCmpRef -> SVGChessBlock.t) (s : SVGChessBoard) : SVGChessBoard :=
  Build_SVGChessBoard (engine s) (dragPiece s) (rxWaste s) (isBusy s) (isDisabled s)
    (banner s) (highlighted s) (boardElRef s) (blocks s) (pieces s)
    v (pieceCmp s) (listeners s) (nextSub s) (timers s) (ctrlCalls s).

Definition set_pieceCmp (v : PieceCmpRef -> SVGChessPiece.t) (s : SVGChessBoard) : SVGChessBoard :=
  Build_SVGChessBoard (engine s) (dragPiece s) (rxWaste s) (isBusy s) (isDisabled s)
    (banner s) (highlighted s) (boardElRef s) (blocks s) (pieces s)
    (blockCmp s) v (listeners s) (nextSub s) (timers s) (ctrlCalls s).

Definition set_listeners (v : list Subscription) (n : nat) (s : SVGChessBoard) : SVGChessBoard :=
  Build_SVGChessBoard (engine s) (dragPiece s) (rxWaste s) (isBusy s) (isDisabled s)
    (banner s) (highlighted s) (boardElRef s) (blocks s) (pieces s)
    (blockCmp s) (pieceCmp s) v n (timers s) (ctrlCalls s).

Definition set_timers (v : list PieceRef) (s : SVGChessBoard) : SVGChessBoard :=
  Build_SVGChessBoard (engine s) (dragPiece s) (rxWaste s) (isBusy s) (isDisabled s)
    (banner s) (highlighted s) (boardElRef s) (blocks s) (pieces s)
    (blockCmp s) (pieceCmp s) (listeners s) (nextSub s) v (ctrlCalls s).

Definition set_ctrlCalls (v : list MoveRequest) (s : SVGChessBoard) : SVGChessBoard :=
  Build_SVGChessBoard (engine s) (dragPiece s) (rxWaste s) (isBusy s) (isDisabled s)
    (banner s) (highlighted s) (boardElRef s) (blocks s) (pieces s)
    (blockCmp s) (pieceCmp s) (listeners s) (nextSub s) (timers s) v.

(** Writing one object of a store. *)
Definition store_set {A : Type} (f : nat -> A) (r : nat) (v : A) : nat -> A :=
  fun r' => if Nat.eqb r' r then v else f r'.

(** Calling a method of the piece component [h]. *)
Definition on_piece (h : PieceCmpRef) (m : SVGChessPiece.t -> SVGChessPiece.t)
  (s : SVGChessBoard) : SVGChessBoard :=
  set_pieceCmp (store_set (pieceCmp s) h (m (pieceCmp s h))) s.

Definition on_block (b : BlockCmpRef) (m : SVGChessBlock.t -> SVGChessBlock.t)
  (s : SVGChessBoard) : SVGChessBoard :=
  set_blockCmp (store_set (blockCmp s) b (m (blockCmp s b))) s.

(** [pieceCmp.block = blockCmp].  The setter is not in the source; its
    effect on the block is the one the comment in [syncPiecesToBlocks]
    gives: "piece.block = block will do block.piece = piece".  Given
    [undefined] it is taken to write the field only. *)
Definition set_block (h : PieceCmpRef) (b : option BlockCmpRef)
  (s : SVGChessBoard) : SVGChessBoard :=
  let s1 := on_piece h (SVGChessPiece.with_block b) s in
  match b with
  | Some r => on_block r (SVGChessBlock.with_piece (Some h)) s1
  | None => s1
  end.

(** ** Subscriptions *)

(** [source.subscribe(...)]: a new subscription object, attached to its
    source. *)
Definition subscribe (src : Source) (s : SVGChessBoard) : Subscription * SVGChessBoard :=
  let sub := {| sub_id := nextSub s; sub_source := src |} in
  (sub, set_listeners (listeners s ++ [sub]) (S (nextSub s)) s).

(** [sub.unsubscribe()]: the listener is detached from its source. *)
Definition unsubscribe (sub : Subscription) (s : SVGChessBoard) : SVGChessBoard :=
  set_listeners
    (filter (fun l => negb (Nat.eqb (sub_id l) (sub_id sub))) (listeners s))
    (nextSub s) s.

(** [this.rxWaste.push(source.subscribe(...))] *)
Definition rxWaste_push (src : Source) (s : SVGChessBoard) : SVGChessBoard :=
  let (sub, s1) := subscribe src s in
  set_rxWaste (rxWaste s1 ++ [sub]) s1.

(** [arr.pop()]: the array without its last element, and that element. *)
Fixpoint pop {A : Type} (arr : list A) : option (list A * A) :=
  match arr with
  | [] => None
  | a :: rest =>
    match pop rest with
    | None => Some ([], a)
    | Some (rest', z) => Some (a :: rest', z)
    end
  end.

(** The loop of [clearSubscriptions]; [fuel] bounds its iterations. *)
Fixpoint clearSubscriptions_loop (fuel : nat) (s : SVGChessBoard) : SVGChessBoard :=
  match fuel with
  | O => s
  | S fuel' =>
    match pop (rxWaste s) with
    | None => s
    | Some (rest, sub) =>
      clearSubscriptions_loop fuel' (unsubscribe sub (set_rxWaste rest s))
    end
  end.

Definition clearSubscriptions (s : SVGChessBoard) : SVGChessBoard :=
  clearSubscriptions_loop (List.length (rxWaste s)) s.

Definition ngOnDestroy (s : SVGChessBoard) : SVGChessBoard :=
  clearSubscriptions s.

Definition blockUi (value : bool) (s : SVGChessBoard) : SVGChessBoard :=
  set_isDisabled value s.

Definition busy (value : bool) (s : SVGChessBoard) : SVGChessBoard :=
  set_isBusy value s.

Definition highlight (bs : list Block.t) (s : SVGChessBoard) : SVGChessBoard :=
  set_highlighted bs s.

Definition onStateChanged (newState : GAME_STATE) (s : SVGChessBoard) : SVGChessBoard :=
  match newState with
  | DRAW | STALEMATE | THREEFOLD_REPETITION | INSUFFICIENT_MATERIAL =>
    clearSubscriptions
      (set_banner (Some {| title := "GAME OVER"; message := "It's a draw!" |}) s)
  | CHECKMATE =>
    let winner :=
      match ChessEngine.winner (engine s) with
      | BLACK => "Black"%string
      | WHITE => "White"%string
      end in
    clearSubscriptions
      (set_banner (Some {| title := "GAME OVER";
                           message := (winner ++ " wins!")%string |}) s)
  | IN_PROGRESS => s
  end.

Definition onPieceDrag (h : PieceCmpRef) (s : SVGChessBoard) : SVGChessBoard :=
  set_dragPiece (Some h) s.

(** The four subscriptions of [registerDragAndDrop], in its order. *)
Definition registerDragAndDrop (s : SVGChessBoard) : SVGChessBoard :=
  rxWaste_push touchend
    (rxWaste_push mouseup
      (rxWaste_push touchdrag
        (rxWaste_push mousedrag s))).

(** What [newGame] does once [clearSubscriptions] has returned. *)
Definition newGame_register (s : SVGChessBoard) : SVGChessBoard :=
  let s := busy false s in
  let s := blockUi false s in
  let s := rxWaste_push boardSynced s in
  let s := rxWaste_push stateChanged s in
  let s := set_banner None s in
  registerDragAndDrop s.

Definition newGame (s : SVGChessBoard) : SVGChessBoard * Promise unit :=
  (newGame_register (clearSubscriptions s), Promise_resolve tt).

Definition askPromotionType (s : SVGChessBoard) : Promise PieceType :=
  Promise_resolve QUEEN.

(** ** Viewport ratios *)

Definition ratioX (s : SVGChessBoard) : result number :=
  let e := boardElRef s in
  if falsy (clientWidth e) then
    parent <- defined (parentNode e) ;;
    Ok (PrimFloat.div width (p_clientWidth parent))
  else Ok (PrimFloat.div width (clientWidth e)).

Definition ratioY (s : SVGChessBoard) : result number :=
  let e := boardElRef s in
  if falsy (clientHeight e) then
    parent <- defined (parentNode e) ;;
    Ok (PrimFloat.div height (p_clientHeight parent))
  else Ok (PrimFloat.div height (clientHeight e)).

(** ** The per-gesture streams *)

Record Pos : Type := { pos_x : number; pos_y : number }.

(** The variables an inner mouse stream closes over. *)
Record MouseDrag : Type := {
  lastX : number;
  lastY : number;
  viewPortRatioX : number;
  viewPortRatioY : number
}.

(** The variables an inner touch stream closes over. *)
Record TouchDrag : Type := {
  t_rect : ClientRect;
  t_lastX : number;
  t_lastY : number;
  t_viewPortRatioX : number;
  t_viewPortRatioY : number
}.

(** What the callback of [flatMap] returns: the empty array, or the stream
    of mapped move events up to the next up/end event. *)
Inductive Stream (C : Type) : Type :=
| stream_empty
| stream_moves (c : C).

Arguments stream_empty {C}.
Arguments stream_moves {C} c.

Definition color_of (h : PieceCmpRef) (s : SVGChessBoard) : PieceColor :=
  Piece.color (ChessEngine.obj (engine s) (SVGChessPiece.piece (pieceCmp s h))).

Definition moves_of (h : PieceCmpRef) (s : SVGChessBoard) : list Block.t :=
  ChessEngine.moves (engine s) (SVGChessPiece.piece (pieceCmp s h)).

(** The callback of [mousedown.flatMap]. *)
Definition mousedrag_flatMap (md : MouseEvent) (s : SVGChessBoard)
  : result (SVGChessBoard * Stream MouseDrag) :=
  if isDisabled s then Ok (s, stream_empty) else
  match dragPiece s with
  | None => Ok (s, stream_empty)
  | Some h =>
    if negb (PieceColor_eqb (color_of h s) (ChessEngine.turn (engine s)))
    then Ok (s, stream_empty)
    else
      rX <- ratioX s ;;
      rY <- ratioY s ;;
      let s := on_piece h SVGChessPiece.dragStart s in
      let s := highlight (moves_of h s) s in
      Ok (s, stream_moves {| lastX := pageX md; lastY := pageY md;
                             viewPortRatioX := rX; viewPortRatioY := rY |})
  end.

(** The callback of [mousemove.map]: the emitted value and the updated
    closure.  [svg] is the board element as it is when the event arrives. *)
Definition mousemove_map (svg : SVGSVGElement) (mm : MouseEvent) (c : MouseDrag)
  : Pos * MouseDrag :=
  let newScale := currentScale svg in
  let translation := currentTranslate svg in
  let x := PrimFloat.div (PrimFloat.sub (pageX mm) (pt_x translation)) newScale in
  let y := PrimFloat.div (PrimFloat.sub (pageY mm) (pt_y translation)) newScale in
  let res_x := PrimFloat.sub x (lastX c) in
  let res_y := PrimFloat.sub y (lastY c) in
  ({| pos_x := PrimFloat.mul res_x (viewPortRatioX c);
      pos_y := PrimFloat.mul res_y (viewPortRatioY c) |},
   {| lastX := pageX mm; lastY := pageY mm;
      viewPortRatioX := viewPortRatioX c;
      viewPortRatioY := viewPortRatioY c |}).

(** The callback of [touchmove.map]. *)
Definition touchmove_map (svg : SVGSVGElement) (mm : TouchEvent) (c : TouchDrag)
  : result (Pos * TouchDrag) :=
  t0 <- defined (hd_error (touches mm)) ;;
  let x := PrimFloat.sub (t_pageX t0) (left (t_rect c)) in
  let y := PrimFloat.sub (t_pageY t0) (top (t_rect c)) in
  let newScale := currentScale svg in
  let translation := currentTranslate svg in
  let x := PrimFloat.div (PrimFloat.sub x (pt_x translation)) newScale in
  let y := PrimFloat.div (PrimFloat.sub y (pt_y translation)) newScale in
  let res_x := PrimFloat.sub x (t_lastX c) in
  let res_y := PrimFloat.sub y (t_lastY c) in
  Ok ({| pos_x := PrimFloat.mul res_x (t_viewPortRatioX c);
         pos_y := PrimFloat.mul res_y (t_viewPortRatioY c) |},
      {| t_rect := t_rect c;
         t_lastX := PrimFloat.sub (t_pageX t0) (left (t_rect c));
         t_lastY := PrimFloat.sub (t_pageY t0) (top (t_rect c));
         t_viewPortRatioX := t_viewPortRatioX c;
         t_viewPortRatioY := t_viewPortRatioY c |}).

(** The values an inner mouse stream emits for the move events that arrive
    before the next mouseup. *)
Fixpoint mouse_emissions (c : MouseDrag) (evs : list (SVGSVGElement * MouseEvent))
  : list Pos :=
  match evs with
  | [] => []
  | (svg, mm) :: rest =>
    let (pos, c') := mousemove_map svg mm c in
    pos :: mouse_emissions c' rest
  end.

(** The same for touch; a callback that throws ends the stream. *)
Fixpoint touch_emissions (c : TouchDrag) (evs : list (SVGSVGElement * TouchEvent))
  : list Pos :=
  match evs with
  | [] => []
  | (svg, mm) :: rest =>
    match touchmove_map svg mm c with
    | Ok (pos, c') => pos :: touch_emissions c' rest
    | TypeError => []
    end
  end.

Definition emissions {C E : Type} (run : C -> list E -> list Pos)
  (st : Stream C) (evs : list E) : list Pos :=
  match st with
  | stream_empty => []
  | stream_moves c => run c evs
  end.

(** The subscriber of both drag streams:
    [pos => pos && this.dragPiece.setCoordinates(pos.x, pos.y)]. *)
Definition drag_next (pos : Pos) (s : SVGChessBoard) : result SVGChessBoard :=
  h <- defined (dragPiece s) ;;
  Ok (on_piece h (SVGChessPiece.setCoordinates (pos_x pos) (pos_y pos)) s).

(** ** Reflecting a logical move, and the sweep *)

(** [arr.filter(pred)[0]] *)
Definition first_of {A : Type} (pred : A -> bool) (arr : list A) : option A :=
  find pred arr.

Definition find_pieceCmp (p : PieceRef) (s : SVGChessBoard) : option PieceCmpRef :=
  first_of (fun h => Nat.eqb (SVGChessPiece.piece (pieceCmp s h)) p) (pieces s).

Definition setTimeout_move (p : PieceRef) (s : SVGChessBoard) : SVGChessBoard :=
  set_timers (timers s ++ [p]) s.

Definition move (p : PieceRef) (s : SVGChessBoard) : result SVGChessBoard :=
  match find_pieceCmp p s with
  | Some h =>
    b <- defined (Piece.block (ChessEngine.obj (engine s) p)) ;;
    let toBlockCmp := at_index (blocks s) (Block.index b) in
    let s := set_block h toBlockCmp s in
    Ok (on_piece h (SVGChessPiece.reset 150) s)
  | None =>
    if existsb (Nat.eqb p) (ChessEngine.pieces (engine s))
    then Ok (setTimeout_move p s)
    else Ok s
  end.

(** The next pending timer fires: its callback is [() => this.move(piece)]. *)
Definition run_timer (s : SVGChessBoard) : result SVGChessBoard :=
  match timers s with
  | [] => Ok s
  | p :: rest => move p (set_timers rest s)
  end.

(** [b.block === pieces[i].piece.block] *)
Definition occupies (s : SVGChessBoard) (b : BlockCmpRef) (h : PieceCmpRef) : bool :=
  match Piece.block (ChessEngine.obj (engine s) (SVGChessPiece.piece (pieceCmp s h))) with
  | Some sq => Block.same (SVGChessBlock.block (blockCmp s b)) sq
  | None => false
  end.

(** The body of [blocks.forEach] in [syncPiecesToBlocks]; [ps] is the
    snapshot of the piece components. *)
Definition sync_block (ps : list PieceCmpRef) (s : SVGChessBoard) (b : BlockCmpRef)
  : SVGChessBoard :=
  match find (occupies s b) ps with
  | Some h => on_piece h (SVGChessPiece.reset 150) (set_block h (Some b) s)
  | None => on_block b (SVGChessBlock.with_piece None) s
  end.

Definition syncPiecesToBlocks (s : SVGChessBoard) : SVGChessBoard :=
  let ps := pieces s in
  let bs := blocks s in
  fold_left (sync_block ps) bs s.

(** ** Dropping *)

Definition endDragAndDrop (s : SVGChessBoard) : result SVGChessBoard :=
  h <- defined (dragPiece s) ;;
  let s := on_piece h SVGChessPiece.dragEnd s in
  let s := set_dragPiece None s in
  Ok (set_highlighted [] s).

(** The callback given to [then] in [dropPiece]. *)
Definition dropPiece_then (mv : ChessMove.t) (s : SVGChessBoard) : result SVGChessBoard :=
  s <- (if ChessMove.invalid mv then
          h <- defined (dragPiece s) ;;
          Ok (on_piece h (SVGChessPiece.reset 150) s)
        else if ChessMove.isCastlingMove mv then Ok (syncPiecesToBlocks s)
        else Ok s) ;;
  endDragAndDrop s.

(** The device point of a drop event. *)
Definition drop_point (mu : DropEvent) : result (number * number) :=
  match mu with
  | MouseUp e => Ok (clientX e, clientY e)
  | TouchEnd e =>
    t0 <- defined (hd_error (changedTouches e)) ;;
    Ok (t_clientX t0, t_clientY t0)
  end.

Section Board.

(** [BaseBlock.pointToIndex] is not in the source: it is a parameter. *)
Variable pointToIndex : number -> number -> Z.

(** [dropBlockIndex] in [dropPiece]. *)
Definition drop_index (mu : DropEvent) (s : SVGChessBoard) : result Z :=
  xy <- drop_point mu ;;
  let rect := getBoundingClientRect (boardElRef s) in
  let x := PrimFloat.sub (fst xy) (left rect) in
  let y := PrimFloat.sub (snd xy) (top rect) in
  rX <- ratioX s ;;
  rY <- ratioY s ;;
  Ok (pointToIndex (PrimFloat.mul x rX) (PrimFloat.mul y rY)).

(** [dropPiece], up to the call of the move authority, which is recorded
    in [ctrlCalls]; [dropPiece_then] runs when its promise resolves. *)
Definition dropPiece (mu : DropEvent) (s : SVGChessBoard) : result SVGChessBoard :=
  dropBlockIndex <- drop_index mu s ;;
  match at_index (blocks s) dropBlockIndex with
  | Some dropBlock =>
    h <- defined (dragPiece s) ;;
    Ok (set_ctrlCalls
          (ctrlCalls s ++
             [{| req_piece := SVGChessPiece.piece (pieceCmp s h);
                 req_block := SVGChessBlock.block (blockCmp s dropBlock) |}]) s)
  | None => endDragAndDrop s
  end.

(** The subscriber of [mouseup] and [touchend]:
    [mu => this.dragPiece && this.dropPiece(mu)]. *)
Definition drop_next (mu : DropEvent) (s : SVGChessBoard) : result SVGChessBoard :=
  match dragPiece s with
  | Some _ => dropPiece mu s
  | None => Ok s
  end.

(** [p.piece.block.index === dropBlockIndex], for every [p] of the
    snapshot in turn. *)
Fixpoint filter_at (s : SVGChessBoard) (i : Z) (ps : list PieceCmpRef)
  : result (list PieceCmpRef) :=
  match ps with
  | [] => Ok []
  | h :: rest =>
    b <- defined (Piece.block (ChessEngine.obj (engine s)
                                 (SVGChessPiece.piece (pieceCmp s h)))) ;;
    found <- filter_at s i rest ;;
    Ok (if (Block.index b =? i)%Z then h :: found else found)
  end.

(** The callback of [touchstart.flatMap]. *)
Definition touchdrag_flatMap (md : TouchEvent) (s : SVGChessBoard)
  : result (SVGChessBoard * Stream TouchDrag) :=
  if isDisabled s then Ok (s, stream_empty) else
  match touches md with
  | [] => Ok (s, stream_empty)
  | t0 :: _ =>
    let rect := getBoundingClientRect (boardElRef s) in
    let lastX := PrimFloat.sub (t_pageX t0) (left rect) in
    let lastY := PrimFloat.sub (t_pageY t0) (top rect) in
    rX <- ratioX s ;;
    rY <- ratioY s ;;
    let dropBlockIndex := pointToIndex (PrimFloat.mul lastX rX) (PrimFloat.mul lastY rY) in
    found <- filter_at s dropBlockIndex (pieces s) ;;
    let s := set_dragPiece (hd_error found) s in
    match dragPiece s with
    | None => Ok (s, stream_empty)
    | Some h =>
      if negb (PieceColor_eqb (color_of h s) (ChessEngine.turn (engine s)))
      then Ok (s, stream_empty)
      else
        vX <- ratioX s ;;
        vY <- ratioY s ;;
        let s := on_piece h SVGChessPiece.dragStart s in
        let s := highlight (moves_of h s) s in
        Ok (s, stream_moves {| t_rect := rect; t_lastX := lastX; t_lastY := lastY;
                               t_viewPortRatioX := vX; t_viewPortRatioY := vY |})
    end
  end.

(** ** The steps of a drag, from its start to the drop *)

Inductive drag_step : SVGChessBoard -> SVGChessBoard -> Prop :=
| step_pieceDrag (h : PieceCmpRef) (s : SVGChessBoard) :
    drag_step s (onPieceDrag h s)
| step_mousedown (md : MouseEvent) (s s' : SVGChessBoard) (st : Stream MouseDrag) :
    mousedrag_flatMap md s = Ok (s', st) -> drag_step s s'
| step_touchstart (md : TouchEvent) (s s' : SVGChessBoard) (st : Stream TouchDrag) :
    touchdrag_flatMap md s = Ok (s', st) -> drag_step s s'
| step_next (pos : Pos) (s s' : SVGChessBoard) :
    drag_next pos s = Ok s' -> drag_step s s'.

Inductive drag_steps : SVGChessBoard -> SVGChessBoard -> Prop :=
| drag_steps_refl (s : SVGChessBoard) : drag_steps s s
| drag_steps_cons (s s' s'' : SVGChessBoard) :
    drag_step s s' -> drag_steps s' s'' -> drag_steps s s''.

End Board.

(** ** The move authority *)



(** ** Notions the statements use *)

(** The rendered piece components that are lifted: each was told
    [dragStart] by an accepted start and has not been told [dragEnd]. *)
Definition lifted (s : SVGChessBoard) : list PieceCmpRef :=
  filter (fun h => SVGChessPiece.isDragged (pieceCmp s h)) (pieces s).

(** The logical square of the piece a piece component shows. *)
Definition square_of (s : SVGChessBoard) (h : PieceCmpRef) : option Block.t :=
  Piece.block (ChessEngine.obj (engine s) (SVGChessPiece.piece (pieceCmp s h))).

(** No two rendered square components show the same logical square. *)
Definition squares_rendered_once (s : SVGChessBoard) : Prop :=
  forall b1 b2, In b1 (blocks s) -> In b2 (blocks s) ->
    Block.same (SVGChessBlock.block (blockCmp s b1))
               (SVGChessBlock.block (blockCmp s b2)) = true -> b1 = b2.

(** No two rendered piece components stand on the same logical square. *)
Definition one_piece_per_square (s : SVGChessBoard) : Prop :=
  forall h1 h2 sq1 sq2, In h1 (pieces s) -> In h2 (pieces s) ->
    square_of s h1 = Some sq1 -> square_of s h2 = Some sq2 ->
    Block.same sq1 sq2 = true -> h1 = h2.

(** The square of every rendered piece is rendered. *)
Definition squares_of_pieces_rendered (s : SVGChessBoard) : Prop :=
  forall h sq, In h (pieces s) -> square_of s h = Some sq ->
    exists b, In b (blocks s) /\
      Block.same (SVGChessBlock.block (blockCmp s b)) sq = true.

(** [s'] shows the same logical model with the same components as [s]:
    only the pairing and the render state of the components may differ. *)
Definition same_model (s s' : SVGChessBoard) : Prop :=
  engine s' = engine s /\ pieces s' = pieces s /\ blocks s' = blocks s /\
  dragPiece s' = dragPiece s /\
  (forall h, SVGChessPiece.piece (pieceCmp s' h) = SVGChessPiece.piece (pieceCmp s h)) /\
  (forall b, SVGChessBlock.block (blockCmp s' b) = SVGChessBlock.block (blockCmp s b)).

(** The piece component [h] and the square component [b] name each other. *)
Definition paired (s : SVGChessBoard) (h : PieceCmpRef) (b : BlockCmpRef) : Prop :=
  SVGChessPiece.block (pieceCmp s h) = Some b /\
  SVGChessBlock.piece (blockCmp s b) = Some h.

(** [s'] differs from [s] at most in the drag reference, the highlighted
    squares and the render state (offset, lifted or not) of the piece
    components: the logical model, the pairing of the components and the
    calls of the move authority are those of [s]. *)
Definition same_pairing (s s' : SVGChessBoard) : Prop :=
  engine s' = engine s /\ pieces s' = pieces s /\ blocks s' = blocks s /\
  blockCmp s' = blockCmp s /\ ctrlCalls s' = ctrlCalls s /\
  forall h,
    SVGChessPiece.piece (pieceCmp s' h) = SVGChessPiece.piece (pieceCmp s h) /\
    SVGChessPiece.block (pieceCmp s' h) = SVGChessPiece.block (pieceCmp s h).

(** Every attached listener is recorded in [rxWaste]. *)
Definition listeners_owned (s : SVGChessBoard) : Prop :=
  forall l, In l (listeners s) ->
    exists sub, In sub (rxWaste s) /\ sub_id sub = sub_id l.

(** Subscription objects in use were allocated before the next one. *)
Definition subs_allocated (s : SVGChessBoard) : Prop :=
  (forall sub, In sub (rxWaste s) -> sub_id sub < nextSub s) /\
  (forall l, In l (listeners s) -> sub_id l < nextSub s).

(** The subscriptions [newGame] makes, given the number of the next one. *)
Definition fresh_subs (n : nat) : list Subscription :=
  [ {| sub_id := n; sub_source := boardSynced |};
    {| sub_id := S n; sub_source := stateChanged |};
    {| sub_id := S (S n); sub_source := mousedrag |};
    {| sub_id := S (S (S n)); sub_source := touchdrag |};
    {| sub_id := S (S (S (S n))); sub_source := mouseup |};
    {| sub_id := S (S (S (S (S n)))); sub_source := touchend |} ].

(** A piece component at rest in its square. *)
Definition at_rest (p : SVGChessPiece.t) : Prop :=
  SVGChessPiece.x p = 0%float /\ SVGChessPiece.y p = 0%float /\
  SVGChessPiece.isDragged p = false.

(** *** Position updates, in the words of the specification *)

(** The board-local position of a sample: the raw position, less the
    current translation, over the current scale. *)
Definition board_local (svg : SVGSVGElement) (raw : Pos) : Pos :=
  {| pos_x := PrimFloat.div (PrimFloat.sub (pos_x raw) (pt_x (currentTranslate svg)))
                (currentScale svg);
     pos_y := PrimFloat.div (PrimFloat.sub (pos_y raw) (pt_y (currentTranslate svg)))
                (currentScale svg) |}.

(** The delta from the previous sample, scaled per axis by [ratio]. *)
Definition scaled_delta (ratio prev cur : Pos) : Pos :=
  {| pos_x := PrimFloat.mul (PrimFloat.sub (pos_x cur) (pos_x prev)) (pos_x ratio);
     pos_y := PrimFloat.mul (PrimFloat.sub (pos_y cur) (pos_y prev)) (pos_y ratio) |}.

(** The updates of a gesture: each sample against the one before it, all
    with the one [ratio]. *)
Fixpoint delta_updates (ratio prev : Pos) (samples : list (SVGSVGElement * Pos))
  : list Pos :=
  match samples with
  | [] => []
  | (svg, raw) :: rest =>
    scaled_delta ratio prev (board_local svg raw) :: delta_updates ratio raw rest
  end.

Definition mouse_sample (ev : SVGSVGElement * MouseEvent) : SVGSVGElement * Pos :=
  (fst ev, {| pos_x := pageX (snd ev); pos_y := pageY (snd ev) |}).

(** The position of a touch sample is that of its first touch, relative to
    the rectangle of the board; the samples end with the first event that
    has no touch. *)
Fixpoint touch_samples (rect : ClientRect) (evs : list (SVGSVGElement * TouchEvent))
  : list (SVGSVGElement * Pos) :=
  match evs with
  | [] => []
  | (svg, mm) :: rest =>
    match touches mm with
    | [] => []
    | t0 :: _ =>
      (svg, {| pos_x := PrimFloat.sub (t_pageX t0) (left rect);
               pos_y := PrimFloat.sub (t_pageY t0) (top rect) |})
        :: touch_samples rect rest
    end
  end.

(** ** A small board: one rank of eight squares

    The white king (piece 0) on square 4, a white rook (piece 1) on
    square 7 and a black rook (piece 2) on square 0; white to move.  The
    board is rendered at half its authored size, 10 px from the left and
    20 px from the top of the viewport. *)

Definition rank_square (i : nat) : Block.t :=
  {| Block.ref := i; Block.index := Z.of_nat i |}.

Definition rank_obj (p : PieceRef) : Piece.t :=
  match p with
  | 0 => {| Piece.color := WHITE; Piece.block := Some (rank_square 4) |}
  | 1 => {| Piece.color := WHITE; Piece.block := Some (rank_square 7) |}
  | _ => {| Piece.color := BLACK; Piece.block := Some (rank_square 0) |}
  end.

Definition rank_moves (p : PieceRef) : list Block.t :=
  match p with
  | 0 => [rank_square 3; rank_square 5; rank_square 6]
  | 1 => [rank_square 5; rank_square 6]
  | _ => [rank_square 1; rank_square 2; rank_square 3]
  end.

Definition rank_engine : ChessEngine.t :=
  {| ChessEngine.turn := WHITE; ChessEngine.winner := WHITE;
     ChessEngine.pieces := [0; 1; 2];
     ChessEngine.obj := rank_obj; ChessEngine.moves := rank_moves |}.

(** The logical state after white has castled king-side. *)
Definition rank_obj_castled (p : PieceRef) : Piece.t :=
  match p with
  | 0 => {| Piece.color := WHITE; Piece.block := Some (rank_square 6) |}
  | 1 => {| Piece.color := WHITE; Piece.block := Some (rank_square 5) |}
  | _ => {| Piece.color := BLACK; Piece.block := Some (rank_square 0) |}
  end.

Definition rank_engine_castled : ChessEngine.t :=
  {| ChessEngine.turn := BLACK; ChessEngine.winner := WHITE;
     ChessEngine.pieces := [0; 1; 2];
     ChessEngine.obj := rank_obj_castled; ChessEngine.moves := fun _ => [] |}.

Definition rank_svg : SVGSVGElement :=
  {| clientWidth := 300%float; clientHeight := 300%float;
     parentNode := None;
     getBoundingClientRect := {| left := 10%float; top := 20%float |};
     currentScale := 1%float;
     currentTranslate := {| pt_x := 0%float; pt_y := 0%float |} |}.

(** The same element after the window was resized to a third. *)
Definition rank_svg_resized : SVGSVGElement :=
  {| clientWidth := 200%float; clientHeight := 200%float;
     parentNode := None;
     getBoundingClientRect := {| left := 10%float; top := 20%float |};
     currentScale := 1%float;
     currentTranslate := {| pt_x := 0%float; pt_y := 0%float |} |}.

Definition rank_blockCmp (b : BlockCmpRef) : SVGChessBlock.t :=
  {| SVGChessBlock.block := rank_square b;
     SVGChessBlock.piece :=
       match b with
       | 4 => Some 0
       | 7 => Some 1
       | 0 => Some 2
       | _ => None
       end |}.

Definition rank_pieceCmp (h : PieceCmpRef) : SVGChessPiece.t :=
  {| SVGChessPiece.piece := h;
     SVGChessPiece.block :=
       match h with
       | 0 => Some 4
       | 1 => Some 7
       | 2 => Some 0
       | _ => None
       end;
     SVGChessPiece.x := 0%float; SVGChessPiece.y := 0%float;
     SVGChessPiece.isDragged := false |}.

(** The board at rest, before any game was started. *)
Definition rank_board : SVGChessBoard :=
  {| engine := rank_engine; dragPiece := None; rxWaste := [];
     isBusy := false; isDisabled := false; banner := None;
     highlighted := []; boardElRef := rank_svg;
     blocks := [0; 1; 2; 3; 4; 5; 6; 7]; pieces := [0; 1; 2];
     blockCmp := rank_blockCmp; pieceCmp := rank_pieceCmp;
     listeners := []; nextSub := 0; timers := []; ctrlCalls := [] |}.

(** The board once a game was started on it. *)
Definition rank_started : SVGChessBoard := fst (newGame rank_board).

(** The king's component was pressed: [onPieceDrag] has named it. *)
Definition rank_king_pressed : SVGChessBoard := onPieceDrag 0 rank_board.

(** The black rook's component was pressed, on white's turn. *)
Definition rank_black_pressed : SVGChessBoard := onPieceDrag 2 rank_board.

(** The board while the user is blocked from interacting. *)
Definition rank_blocked : SVGChessBoard := blockUi true rank_king_pressed.

(** The column of an authored x coordinate, eight columns of 75. *)
Definition rank_column (x : number) : Z :=
  if PrimFloat.ltb x 0 then (-1)%Z
  else if PrimFloat.ltb x 75 then 0%Z
  else if PrimFloat.ltb x 150 then 1%Z
  else if PrimFloat.ltb x 225 then 2%Z
  else if PrimFloat.ltb x 300 then 3%Z
  else if PrimFloat.ltb x 375 then 4%Z
  else if PrimFloat.ltb x 450 then 5%Z
  else if PrimFloat.ltb x 525 then 6%Z
  else if PrimFloat.ltb x 600 then 7%Z
  else (-1)%Z.

(** A [pointToIndex] for the rank: the column of a point of the first row,
    and no square elsewhere. *)
Definition rank_pointToIndex (x y : number) : Z :=
  if (PrimFloat.leb 0 y && PrimFloat.ltb y 75)%bool then rank_column x else (-1)%Z.

Definition mouse_at (x y : number) : MouseEvent :=
  {| pageX := x; pageY := y; clientX := x; clientY := y |}.

Definition touch_at (x y : number) : Touch :=
  {| t_pageX := x; t_pageY := y; t_clientX := x; t_clientY := y |}.

Definition touches_at (x y : number) : TouchEvent :=
  {| touches := [touch_at x y]; changedTouches := [touch_at x y] |}.

(** The king is being dragged with the mouse: lifted, its destinations
    highlighted. *)
Definition rank_king_lifted : SVGChessBoard :=
  match mousedrag_flatMap (mouse_at 200%float 30%float) rank_king_pressed with
  | Ok (s, _) => s
  | TypeError => rank_king_pressed
  end.

(** While the king is held, a touch starts on the rook's square. *)
Definition rank_rook_touched : SVGChessBoard :=
  match touchdrag_flatMap rank_pointToIndex (touches_at 280%float 30%float)
          rank_king_lifted with
  | Ok (s, _) => s
  | TypeError => rank_king_lifted
  end.

Definition or_else (r : result SVGChessBoard) (d : SVGChessBoard) : SVGChessBoard :=
  match r with
  | Ok s => s
  | TypeError => d
  end.

(** The held king has followed the mouse by one update. *)
Definition rank_king_dragged : SVGChessBoard :=
  or_else (drag_next {| pos_x := 20%float; pos_y := 10%float |} rank_king_lifted)
    rank_king_lifted.

(** The king was dropped two squares to the right, and the engine has
    castled: the callback of the drop is about to run. *)
Definition rank_castled_pending : SVGChessBoard :=
  set_engine rank_engine_castled rank_king_dragged.

(** A touch starts on the black rook's square, on white's turn. *)
Definition rank_black_touched : SVGChessBoard :=
  match touchdrag_flatMap rank_pointToIndex (touches_at 20%float 30%float)
          rank_board with
  | Ok (s, _) => s
  | TypeError => rank_board
  end.

(** The rendering layer refreshes the query list of piece components. *)
Definition render_pieces (ps : list PieceCmpRef) (s : SVGChessBoard) : SVGChessBoard :=
  Build_SVGChessBoard (engine s) (dragPiece s) (rxWaste s) (isBusy s) (isDisabled s)
    (banner s) (highlighted s) (boardElRef s) (blocks s) ps
    (blockCmp s) (pieceCmp s) (listeners s) (nextSub s) (timers s) (ctrlCalls s).

(** The engine has a new white piece (piece 3) on square 2 that no
    component shows yet. *)
Definition rank_engine_promoted : ChessEngine.t :=
  {| ChessEngine.turn := BLACK; ChessEngine.winner := WHITE;
     ChessEngine.pieces := [0; 1; 2; 3];
     ChessEngine.obj := fun p =>
       match p with
       | 3 => {| Piece.color := WHITE; Piece.block := Some (rank_square 2) |}
       | _ => rank_obj p
       end;
     ChessEngine.moves := fun _ => [] |}.

Definition rank_promoted : SVGChessBoard := set_engine rank_engine_promoted rank_board.

(** The same board one render pass after [move] was put off. *)
Definition rank_promoted_rendered : SVGChessBoard :=
  render_pieces [0; 1; 2; 3] (setTimeout_move 3 rank_promoted).

Definition two_mouse_moves : list (SVGSVGElement * MouseEvent) :=
  [ (rank_svg, mouse_at 210%float 35%float);
    (rank_svg_resized, mouse_at 230%float 40%float) ].

Definition two_touch_moves : list (SVGSVGElement * TouchEvent) :=
  [ (rank_svg, touches_at 210%float 35%float);
    (rank_svg_resized, touches_at 230%float 40%float) ].

(** ** The life cycle of the component, and pending timers *)

(** The calls the framework and the engine make on the component. *)
Inductive Lifecycle : Type :=
| call_newGame
| call_onStateChanged (newState : GAME_STATE)
| call_ngOnDestroy.

Definition lifecycle_step (s : SVGChessBoard) (c : Lifecycle) : SVGChessBoard :=
  match c with
  | call_newGame => fst (newGame s)
  | call_onStateChanged newState => onStateChanged newState s
  | call_ngOnDestroy => ngOnDestroy s
  end.

Definition lifecycle_run (cs : list Lifecycle) (s : SVGChessBoard) : SVGChessBoard :=
  fold_left lifecycle_step cs s.

(** The states for which [onStateChanged] has a case. *)
Definition is_game_over (st : GAME_STATE) : bool :=
  match st with
  | IN_PROGRESS => false
  | _ => true
  end.

(** [n] pending timers fire, one after the other. *)
Fixpoint run_timers (n : nat) (s : SVGChessBoard) : result SVGChessBoard :=
  match n with
  | O => Ok s
  | S n' => s' <- run_timer s ;; run_timers n' s'
  end.

(** [s'] is [s] but for the subscriptions: what is recorded in [rxWaste]
    and what is attached. *)
Definition only_subscriptions_differ (s s' : SVGChessBoard) : Prop :=
  engine s' = engine s /\ dragPiece s' = dragPiece s /\
  isBusy s' = isBusy s /\ isDisabled s' = isDisabled s /\
  banner s' = banner s /\ highlighted s' = highlighted s /\
  boardElRef s' = boardElRef s /\ blocks s' = blocks s /\ pieces s' = pieces s /\
  blockCmp s' = blockCmp s /\ pieceCmp s' = pieceCmp s /\
  nextSub s' = nextSub s /\ timers s' = timers s /\ ctrlCalls s' = ctrlCalls s.

(** A game is started, ends in checkmate, and two more games are started. *)
Definition three_games : list Lifecycle :=
  [call_newGame; call_onStateChanged CHECKMATE; call_newGame; call_newGame].

(** The subscriber of a drag stream is called with each value in turn. *)
Fixpoint drag_all (ps : list Pos) (s : SVGChessBoard) : result SVGChessBoard :=
  match ps with
  | [] => Ok s
  | pos :: rest => s' <- drag_next pos s ;; drag_all rest s'
  end.

(** The held king was dropped and the move was reported invalid. *)
Definition rank_king_returned : SVGChessBoard :=
  or_else (dropPiece_then {| ChessMove.invalid := true;
                             ChessMove.isCastlingMove := false |} rank_king_dragged)
    rank_king_dragged.

(** The black rook was captured: its piece has no square any more, and its
    component is still rendered. *)
Definition rank_engine_captured : ChessEngine.t :=
  {| ChessEngine.turn := BLACK; ChessEngine.winner := WHITE;
     ChessEngine.pieces := [0; 1];
     ChessEngine.obj := fun p =>
       match p with
       | 2 => {| Piece.color := BLACK; Piece.block := None |}
       | _ => rank_obj p
       end;
     ChessEngine.moves := fun _ => [] |}.

Definition rank_captured : SVGChessBoard := set_engine rank_engine_captured rank_board.

(** The white rook has taken the black rook on square 0, and the captured
    piece still names that square. *)
Definition rank_engine_taking : ChessEngine.t :=
  {| ChessEngine.turn := BLACK; ChessEngine.winner := WHITE;
     ChessEngine.pieces := [0; 1];
     ChessEngine.obj := fun p =>
       match p with
       | 1 => {| Piece.color := WHITE; Piece.block := Some (rank_square 0) |}
       | _ => rank_obj p
       end;
     ChessEngine.moves := fun _ => [] |}.

Definition rank_taking : SVGChessBoard := set_engine rank_engine_taking rank_board.

Definition two_updates : list Pos :=
  [ {| pos_x := 20%float; pos_y := 10%float |};
    {| pos_x := 40%float; pos_y := 10%float |} ].

(** A board element that has no size and no parent, as before it is
    attached to the document, with the king pressed. *)
Definition rank_svg_detached : SVGSVGElement :=
  {| clientWidth := 0%float; clientHeight := 0%float;
     parentNode := None;
     getBoundingClientRect := {| left := 0%float; top := 0%float |};
     currentScale := 1%float;
     currentTranslate := {| pt_x := 0%float; pt_y := 0%float |} |}.

Definition rank_detached : SVGChessBoard :=
  {| engine := rank_engine; dragPiece := Some 0; rxWaste := [];
     isBusy := false; isDisabled := false; banner := None;
     highlighted := []; boardElRef := rank_svg_detached;
     blocks := [0; 1; 2; 3; 4; 5; 6; 7]; pieces := [0; 1; 2];
     blockCmp := rank_blockCmp; pieceCmp := rank_pieceCmp;
     listeners := []; nextSub := 0; timers := []; ctrlCalls := [] |}.

(** * Properties *)

Section Properties.

Variable pointToIndex : number -> number -> Z.

(** ** Stores and arrays *)

Lemma store_set_same (A : Type) (f : nat -> A) (r : nat) (v : A) :
  store_set f r v r = v.
Proof. unfold store_set. now rewrite Nat.eqb_refl. Qed.

Lemma store_set_other (A : Type) (f : nat -> A) (r r' : nat) (v : A) :
  r' <> r -> store_set f r v r' = f r'.
Proof.
  intro Hne. unfold store_set.
  destruct (Nat.eqb_spec r' r) as [Heq | _]; [contradiction | reflexivity].
Qed.

Lemma pop_None (A : Type) (arr : list A) : pop arr = None -> arr = [].
Proof.
  destruct arr as [| a rest]; [reflexivity |].
  simpl. destruct (pop rest) as [[rest' z] |]; discriminate.
Qed.

Lemma pop_Some (A : Type) (arr rest : list A) (z : A) :
  pop arr = Some (rest, z) -> arr = rest ++ [z].
Proof.
  revert rest z. induction arr as [| a arr IH]; intros rest z Hpop.
  - discriminate.
  - simpl in Hpop. destruct (pop arr) as [[rest' z'] |] eqn:Hinner.
    + injection Hpop as <- <-. simpl. f_equal. now apply IH.
    + injection Hpop as <- <-. apply pop_None in Hinner. now subst arr.
Qed.

(** ** Writing the component stores *)

Lemma pieceCmp_on_piece (h : PieceCmpRef) (m : SVGChessPiece.t -> SVGChessPiece.t)
  (s : SVGChessBoard) (h' : PieceCmpRef) :
  pieceCmp (on_piece h m s) h' = if Nat.eqb h' h then m (pieceCmp s h) else pieceCmp s h'.
Proof. reflexivity. Qed.

Lemma blockCmp_on_block (b : BlockCmpRef) (m : SVGChessBlock.t -> SVGChessBlock.t)
  (s : SVGChessBoard) (b' : BlockCmpRef) :
  blockCmp (on_block b m s) b' = if Nat.eqb b' b then m (blockCmp s b) else blockCmp s b'.
Proof. reflexivity. Qed.

Lemma pieceCmp_set_block (h : PieceCmpRef) (b : option BlockCmpRef)
  (s : SVGChessBoard) (h' : PieceCmpRef) :
  pieceCmp (set_block h b s) h'
  = if Nat.eqb h' h then SVGChessPiece.with_block b (pieceCmp s h) else pieceCmp s h'.
Proof. destruct b; reflexivity. Qed.

Lemma blockCmp_set_block (h : PieceCmpRef) (b : BlockCmpRef)
  (s : SVGChessBoard) (b' : BlockCmpRef) :
  blockCmp (set_block h (Some b) s) b'
  = if Nat.eqb b' b then SVGChessBlock.with_piece (Some h) (blockCmp s b)
    else blockCmp s b'.
Proof. reflexivity. Qed.

(** The piece component after [pieceCmp.block = to; pieceCmp.reset(150)]. *)
Lemma pieceCmp_paired (h : PieceCmpRef) (to : option BlockCmpRef) (s : SVGChessBoard) :
  SVGChessPiece.block
    (pieceCmp (on_piece h (SVGChessPiece.reset 150) (set_block h to s)) h) = to.
Proof.
  rewrite pieceCmp_on_piece, Nat.eqb_refl. simpl.
  rewrite pieceCmp_set_block, Nat.eqb_refl. reflexivity.
Qed.

Lemma blockCmp_paired (h : PieceCmpRef) (b : BlockCmpRef) (s : SVGChessBoard) :
  SVGChessBlock.piece
    (blockCmp (on_piece h (SVGChessPiece.reset 150) (set_block h (Some b) s)) b)
  = Some h.
Proof.
  change (blockCmp (on_piece h (SVGChessPiece.reset 150) (set_block h (Some b) s)) b)
    with (blockCmp (set_block h (Some b) s) b).
  rewrite blockCmp_set_block, Nat.eqb_refl. reflexivity.
Qed.

(** ** Subscriptions *)

Lemma clearSubscriptions_loop_spec (fuel : nat) :
  forall s, List.length (rxWaste s) <= fuel ->
    rxWaste (clearSubscriptions_loop fuel s) = [] /\
    nextSub (clearSubscriptions_loop fuel s) = nextSub s /\
    (forall l, In l (listeners (clearSubscriptions_loop fuel s)) <->
       In l (listeners s) /\
       forall sub, In sub (rxWaste s) -> sub_id l <> sub_id sub).
Proof.
  induction fuel as [| fuel IH]; intros s Hlen.
  - destruct (rxWaste s) as [| sub0 w] eqn:Hw; [| simpl in Hlen; lia].
    simpl. rewrite Hw. repeat split; tauto.
  - simpl. destruct (pop (rxWaste s)) as [[rest sub] |] eqn:Hpop.
    + apply pop_Some in Hpop.
      assert (Hlen' : List.length (rxWaste (unsubscribe sub (set_rxWaste rest s))) <= fuel).
      { simpl. rewrite Hpop, length_app in Hlen. simpl in Hlen. lia. }
      destruct (IH _ Hlen') as (Hw & Hn & Hl).
      split; [exact Hw |]. split; [exact Hn |].
      intro l. rewrite Hl. simpl. rewrite filter_In, negb_true_iff, Nat.eqb_neq.
      rewrite Hpop. split.
      * intros [[Hin Hne] Hrest]. split; [exact Hin |].
        intros sub' Hin'. apply in_app_or in Hin'.
        destruct Hin' as [Hin' | [<- | []]]; [now apply Hrest | exact Hne].
      * intros [Hin Hall]. repeat split; [exact Hin | |].
        -- apply Hall, in_or_app. right. now left.
        -- intros sub' Hin'. apply Hall, in_or_app. now left.
    + apply pop_None in Hpop. rewrite Hpop. repeat split; tauto.
Qed.

Lemma clearSubscriptions_spec (s : SVGChessBoard) :
  rxWaste (clearSubscriptions s) = [] /\
  nextSub (clearSubscriptions s) = nextSub s /\
  (forall l, In l (listeners (clearSubscriptions s)) <->
     In l (listeners s) /\
     forall sub, In sub (rxWaste s) -> sub_id l <> sub_id sub).
Proof. apply clearSubscriptions_loop_spec. apply le_n. Qed.

Lemma clearSubscriptions_drains (s : SVGChessBoard) :
  listeners_owned s -> listeners (clearSubscriptions s) = [].
Proof.
  intro Hown. destruct (clearSubscriptions_spec s) as (_ & _ & Hl).
  destruct (listeners (clearSubscriptions s)) as [| l ls] eqn:Hls; [reflexivity |].
  exfalso. destruct (proj1 (Hl l) (or_introl eq_refl)) as [Hin Hne].
  destruct (Hown l Hin) as (sub & Hsub & Hid).
  now apply (Hne sub Hsub).
Qed.

Lemma rxWaste_push_subs (src : Source) (s : SVGChessBoard) :
  rxWaste (rxWaste_push src s)
    = rxWaste s ++ [{| sub_id := nextSub s; sub_source := src |}] /\
  listeners (rxWaste_push src s)
    = listeners s ++ [{| sub_id := nextSub s; sub_source := src |}] /\
  nextSub (rxWaste_push src s) = S (nextSub s).
Proof. repeat split. Qed.

Lemma registerDragAndDrop_subs (s : SVGChessBoard) :
  let n := nextSub s in
  let new :=
    [ {| sub_id := n; sub_source := mousedrag |};
      {| sub_id := S n; sub_source := touchdrag |};
      {| sub_id := S (S n); sub_source := mouseup |};
      {| sub_id := S (S (S n)); sub_source := touchend |} ] in
  rxWaste (registerDragAndDrop s) = rxWaste s ++ new /\
  listeners (registerDragAndDrop s) = listeners s ++ new /\
  nextSub (registerDragAndDrop s) = 4 + nextSub s.
Proof.
  unfold registerDragAndDrop.
  destruct (rxWaste_push_subs mousedrag s) as (Hw1 & Hl1 & Hn1).
  destruct (rxWaste_push_subs touchdrag (rxWaste_push mousedrag s))
    as (Hw2 & Hl2 & Hn2).
  destruct (rxWaste_push_subs mouseup
              (rxWaste_push touchdrag (rxWaste_push mousedrag s)))
    as (Hw3 & Hl3 & Hn3).
  destruct (rxWaste_push_subs touchend
              (rxWaste_push mouseup
                 (rxWaste_push touchdrag (rxWaste_push mousedrag s))))
    as (Hw4 & Hl4 & Hn4).
  rewrite Hw4, Hl4, Hn4, Hw3, Hl3, Hn3, Hw2, Hl2, Hn2, Hw1, Hl1, Hn1.
  rewrite <- !app_assoc. repeat split.
Qed.

Lemma newGame_register_subs (s : SVGChessBoard) :
  rxWaste (newGame_register s) = rxWaste s ++ fresh_subs (nextSub s) /\
  listeners (newGame_register s) = listeners s ++ fresh_subs (nextSub s) /\
  nextSub (newGame_register s) = 6 + nextSub s.
Proof.
  unfold newGame_register.
  set (s0 := blockUi false (busy false s)).
  set (s2 := set_banner None (rxWaste_push stateChanged (rxWaste_push boardSynced s0))).
  destruct (registerDragAndDrop_subs s2) as (Hw & Hl & Hn).
  rewrite Hw, Hl, Hn.
  destruct (rxWaste_push_subs boardSynced s0) as (Hw1 & Hl1 & Hn1).
  destruct (rxWaste_push_subs stateChanged (rxWaste_push boardSynced s0))
    as (Hw2 & Hl2 & Hn2).
  change (rxWaste s2) with (rxWaste (rxWaste_push stateChanged (rxWaste_push boardSynced s0))).
  change (listeners s2) with (listeners (rxWaste_push stateChanged (rxWaste_push boardSynced s0))).
  change (nextSub s2) with (nextSub (rxWaste_push stateChanged (rxWaste_push boardSynced s0))).
  rewrite Hw2, Hl2, Hn2, Hw1, Hl1, Hn1.
  change (rxWaste s0) with (rxWaste s).
  change (listeners s0) with (listeners s).
  change (nextSub s0) with (nextSub s).
  rewrite <- !app_assoc. repeat split.
Qed.

Lemma fresh_subs_ids (n : nat) (sub : Subscription) :
  In sub (fresh_subs n) -> n <= sub_id sub < 6 + n.
Proof.
  unfold fresh_subs. intro Hin.
  repeat destruct Hin as [<- | Hin]; simpl; try lia. destruct Hin.
Qed.

Lemma newGame_subs (s : SVGChessBoard) :
  listeners_owned s ->
  rxWaste (fst (newGame s)) = fresh_subs (nextSub s) /\
  listeners (fst (newGame s)) = fresh_subs (nextSub s) /\
  nextSub (fst (newGame s)) = 6 + nextSub s.
Proof.
  intro Hown.
  change (fst (newGame s)) with (newGame_register (clearSubscriptions s)).
  destruct (newGame_register_subs (clearSubscriptions s)) as (Hw & Hl & Hn).
  destruct (clearSubscriptions_spec s) as (Hw0 & Hn0 & _).
  rewrite Hw, Hl, Hn, Hw0, Hn0, (clearSubscriptions_drains Hown).
  repeat split.
Qed.

(** The two conditions on subscriptions hold again after [newGame]. *)
Lemma newGame_keeps_subscriptions_sound (s : SVGChessBoard) :
  listeners_owned s -> subs_allocated s ->
  listeners_owned (fst (newGame s)) /\ subs_allocated (fst (newGame s)).
Proof.
  intros Hown _. destruct (newGame_subs Hown) as (Hw & Hl & Hn). split.
  - intros l Hin. exists l. rewrite Hw. rewrite Hl in Hin. now split.
  - unfold subs_allocated. rewrite Hw, Hl, Hn.
    split; intros sub Hin; apply fresh_subs_ids in Hin; lia.
Qed.

(** C6.  [newGame] first cancels, then registers: right after
    [clearSubscriptions] the subscription set [rxWaste] is empty and no
    listener is attached, and none of the subscriptions of the previous
    game is attached or recorded once [newGame] has returned. *)
Theorem newGame_cancels_previous_listeners (s : SVGChessBoard) :
  listeners_owned s -> subs_allocated s ->
  fst (newGame s) = newGame_register (clearSubscriptions s) /\
  rxWaste (clearSubscriptions s) = [] /\
  listeners (clearSubscriptions s) = [] /\
  (forall sub, In sub (rxWaste s) ->
     ~ In sub (listeners (fst (newGame s))) /\
     ~ In sub (rxWaste (fst (newGame s)))) /\
  (forall l, In l (listeners s) -> ~ In l (listeners (fst (newGame s)))).
Proof.
  intros Hown [Hw Hl].
  destruct (newGame_subs Hown) as (Hw' & Hl' & _).
  split; [reflexivity |].
  split; [apply clearSubscriptions_spec |].
  split; [now apply clearSubscriptions_drains |].
  split.
  - intros sub Hin. rewrite Hw', Hl'.
    split; intro Hnew; apply fresh_subs_ids in Hnew; apply Hw in Hin; lia.
  - intros l Hin. rewrite Hl'.
    intro Hnew. apply fresh_subs_ids in Hnew. apply Hl in Hin. lia.
Qed.

(** C10.  [askPromotionType] returns a promise that is already resolved,
    to the queen, whatever the state of the board; no other piece type is
    ever its value. *)
Theorem askPromotionType_always_queen (s : SVGChessBoard) :
  askPromotionType s = Promise_resolve QUEEN /\
  askPromotionType s <> Promise_pending /\
  (forall t, askPromotionType s = Promise_resolve t -> t = QUEEN).
Proof.
  unfold askPromotionType. repeat split.
  - discriminate.
  - intros t Ht. now injection Ht as <-.
Qed.

(** ** The per-gesture streams *)

Lemma PieceColor_eqb_eq (a b : PieceColor) : PieceColor_eqb a b = true <-> a = b.
Proof. destruct a, b; simpl; split; congruence. Qed.

Lemma PieceColor_eqb_neq (a b : PieceColor) : a <> b -> PieceColor_eqb a b = false.
Proof.
  intro Hne. destruct (PieceColor_eqb a b) eqn:Heq; [| reflexivity].
  apply PieceColor_eqb_eq in Heq. contradiction.
Qed.

Lemma mouse_emissions_deltas (evs : list (SVGSVGElement * MouseEvent)) :
  forall c,
    mouse_emissions c evs
    = delta_updates {| pos_x := viewPortRatioX c; pos_y := viewPortRatioY c |}
        {| pos_x := lastX c; pos_y := lastY c |} (map mouse_sample evs).
Proof.
  induction evs as [| [svg mm] evs IH]; intro c; [reflexivity |].
  simpl. f_equal. apply (IH {| lastX := pageX mm; lastY := pageY mm;
                               viewPortRatioX := viewPortRatioX c;
                               viewPortRatioY := viewPortRatioY c |}).
Qed.

Lemma touch_emissions_deltas (evs : list (SVGSVGElement * TouchEvent)) :
  forall c,
    touch_emissions c evs
    = delta_updates {| pos_x := t_viewPortRatioX c; pos_y := t_viewPortRatioY c |}
        {| pos_x := t_lastX c; pos_y := t_lastY c |} (touch_samples (t_rect c) evs).
Proof.
  induction evs as [| [svg mm] evs IH]; intro c; [reflexivity |].
  simpl. unfold touchmove_map. destruct (touches mm) as [| t0 more]; [reflexivity |].
  simpl. f_equal.
  apply (IH {| t_rect := t_rect c;
               t_lastX := PrimFloat.sub (t_pageX t0) (left (t_rect c));
               t_lastY := PrimFloat.sub (t_pageY t0) (top (t_rect c));
               t_viewPortRatioX := t_viewPortRatioX c;
               t_viewPortRatioY := t_viewPortRatioY c |}).
Qed.

(** What a mouse gesture that starts closes over. *)
Lemma mousedrag_flatMap_moves (md : MouseEvent) (s s' : SVGChessBoard) (c : MouseDrag) :
  mousedrag_flatMap md s = Ok (s', stream_moves c) ->
  exists h rX rY,
    dragPiece s = Some h /\ ratioX s = Ok rX /\ ratioY s = Ok rY /\
    c = {| lastX := pageX md; lastY := pageY md;
           viewPortRatioX := rX; viewPortRatioY := rY |} /\
    s' = highlight (moves_of h (on_piece h SVGChessPiece.dragStart s))
           (on_piece h SVGChessPiece.dragStart s).
Proof.
  unfold mousedrag_flatMap. intro H.
  destruct (isDisabled s); [discriminate |].
  destruct (dragPiece s) as [h |]; [| discriminate].
  destruct (negb _); [discriminate |].
  destruct (ratioX s) as [rX |]; [| discriminate].
  destruct (ratioY s) as [rY |]; [| discriminate].
  simpl in H. injection H as <- <-. now exists h, rX, rY.
Qed.

(** What a touch gesture that starts closes over. *)
Lemma touchdrag_flatMap_moves (md : TouchEvent) (s s' : SVGChessBoard) (c : TouchDrag) :
  touchdrag_flatMap pointToIndex md s = Ok (s', stream_moves c) ->
  exists t0 more rX rY,
    touches md = t0 :: more /\ ratioX s = Ok rX /\ ratioY s = Ok rY /\
    c = {| t_rect := getBoundingClientRect (boardElRef s);
           t_lastX := PrimFloat.sub (t_pageX t0) (left (getBoundingClientRect (boardElRef s)));
           t_lastY := PrimFloat.sub (t_pageY t0) (top (getBoundingClientRect (boardElRef s)));
           t_viewPortRatioX := rX; t_viewPortRatioY := rY |}.
Proof.
  unfold touchdrag_flatMap. intro H.
  destruct (isDisabled s); [discriminate |].
  destruct (touches md) as [| t0 more]; [discriminate |].
  destruct (ratioX s) as [rX |] eqn:HrX; [| discriminate].
  destruct (ratioY s) as [rY |] eqn:HrY; [| discriminate].
  simpl in H.
  destruct (filter_at s _ (pieces s)) as [found |]; [| discriminate].
  simpl in H. destruct (hd_error found) as [h |]; [| discriminate].
  destruct (negb _); [discriminate |].
  change (ratioX (set_dragPiece (Some h) s)) with (ratioX s) in H.
  change (ratioY (set_dragPiece (Some h) s)) with (ratioY s) in H.
  rewrite HrX, HrY in H. simpl in H. injection H as <- <-.
  now exists t0, more, rX, rY.
Qed.

(** C8.  On both paths every update a gesture emits is the delta between
    the board-local position of the current sample and the position of the
    previous sample (the start event for the first), scaled per axis by the
    viewport ratios read when the gesture started, whatever the size of the
    element when the sample arrives. *)
Theorem position_updates_are_scaled_deltas (s : SVGChessBoard) :
  (forall md s' c,
     mousedrag_flatMap md s = Ok (s', stream_moves c) ->
     exists rX rY,
       ratioX s = Ok rX /\ ratioY s = Ok rY /\
       forall evs,
         emissions mouse_emissions (stream_moves c) evs
         = delta_updates {| pos_x := rX; pos_y := rY |}
             {| pos_x := pageX md; pos_y := pageY md |} (map mouse_sample evs)) /\
  (forall md s' c,
     touchdrag_flatMap pointToIndex md s = Ok (s', stream_moves c) ->
     exists t0 more rX rY,
       touches md = t0 :: more /\ ratioX s = Ok rX /\ ratioY s = Ok rY /\
       forall evs,
         emissions touch_emissions (stream_moves c) evs
         = delta_updates {| pos_x := rX; pos_y := rY |}
             {| pos_x := PrimFloat.sub (t_pageX t0) (left (getBoundingClientRect (boardElRef s)));
                pos_y := PrimFloat.sub (t_pageY t0) (top (getBoundingClientRect (boardElRef s))) |}
             (touch_samples (getBoundingClientRect (boardElRef s)) evs)).
Proof.
  split.
  - intros md s' c H.
    destruct (mousedrag_flatMap_moves _ _ H) as (h & rX & rY & _ & HrX & HrY & -> & _).
    exists rX, rY. repeat split; try assumption.
    intro evs. apply mouse_emissions_deltas.
  - intros md s' c H.
    destruct (touchdrag_flatMap_moves _ _ H) as (t0 & more & rX & rY & Ht & HrX & HrY & ->).
    exists t0, more, rX, rY. repeat split; try assumption.
    intro evs. apply touch_emissions_deltas.
Qed.

(** C7.  A start for a piece of the side that is not to move gives the
    empty stream, which emits nothing, and no piece component is touched:
    on the mouse path the board is left as it was; on the touch path only
    the drag reference has been set to the candidate. *)
Theorem wrong_turn_start_is_empty (s : SVGChessBoard) :
  (forall md h,
     dragPiece s = Some h ->
     color_of h s <> ChessEngine.turn (engine s) ->
     mousedrag_flatMap md s = Ok (s, stream_empty) /\
     forall evs, emissions mouse_emissions (@stream_empty MouseDrag) evs = []) /\
  (forall md s' st h,
     touchdrag_flatMap pointToIndex md s = Ok (s', st) ->
     dragPiece s' = Some h ->
     color_of h s' <> ChessEngine.turn (engine s') ->
     st = stream_empty /\
     (forall evs, emissions touch_emissions st evs = []) /\
     pieceCmp s' = pieceCmp s /\ highlighted s' = highlighted s).
Proof.
  split.
  - intros md h Hd Hc. split; [| reflexivity].
    unfold mousedrag_flatMap. rewrite Hd.
    rewrite (PieceColor_eqb_neq Hc). simpl. now destruct (isDisabled s).
  - intros md s' st h H Hd Hc.
    assert (Hgoal : st = stream_empty /\ pieceCmp s' = pieceCmp s /\
                    highlighted s' = highlighted s).
    { unfold touchdrag_flatMap in H.
      destruct (isDisabled s); [injection H as <- <-; now repeat split |].
      destruct (touches md) as [| t0 more]; [injection H as <- <-; now repeat split |].
      destruct (ratioX s) as [rX |] eqn:HrX; [| discriminate].
      destruct (ratioY s) as [rY |] eqn:HrY; [| discriminate].
      simpl in H.
      destruct (filter_at s _ (pieces s)) as [found |]; [| discriminate].
      simpl in H. destruct (hd_error found) as [h' |].
      - destruct (negb _) eqn:Hturn.
        + injection H as <- <-. now repeat split.
        + change (ratioX (set_dragPiece (Some h') s)) with (ratioX s) in H.
          change (ratioY (set_dragPiece (Some h') s)) with (ratioY s) in H.
          rewrite HrX, HrY in H. simpl in H. injection H as <- <-.
          exfalso. simpl in Hd. injection Hd as ->.
          apply negb_false_iff, PieceColor_eqb_eq in Hturn.
          apply Hc. unfold color_of in *. simpl. unfold store_set.
          rewrite Nat.eqb_refl. simpl. exact Hturn.
      - injection H as <- <-. now repeat split. }
    destruct Hgoal as (-> & Hp & Hh). now repeat split.
Qed.

(** ** Reflecting a logical move *)

Lemma move_rendered (p : PieceRef) (s : SVGChessBoard) (h : PieceCmpRef) (sq : Block.t) :
  find_pieceCmp p s = Some h ->
  Piece.block (ChessEngine.obj (engine s) p) = Some sq ->
  move p s = Ok (on_piece h (SVGChessPiece.reset 150)
                   (set_block h (at_index (blocks s) (Block.index sq)) s)).
Proof. intros Hf Hsq. unfold move. rewrite Hf, Hsq. reflexivity. Qed.

Lemma move_not_rendered (p : PieceRef) (s : SVGChessBoard) :
  find_pieceCmp p s = None ->
  In p (ChessEngine.pieces (engine s)) ->
  move p s = Ok (setTimeout_move p s).
Proof.
  intros Hf Hin. unfold move. rewrite Hf.
  replace (existsb (Nat.eqb p) (ChessEngine.pieces (engine s))) with true;
    [reflexivity |].
  symmetry. apply existsb_exists. exists p. split; [exact Hin | apply Nat.eqb_refl].
Qed.

(** C9.  [move] for a piece of the engine whose component is not rendered
    yet returns without an error and changes nothing but the timers, where
    it leaves itself.  When the timer fires on a board that has the
    component, the component is paired with the square component at the
    index of the piece's square; while the component is still missing, the
    call is put off once more. *)
Theorem move_defers_until_rendered (s : SVGChessBoard) (p : PieceRef) :
  find_pieceCmp p s = None ->
  In p (ChessEngine.pieces (engine s)) ->
  move p s = Ok (set_timers (timers s ++ [p]) s) /\
  (forall s' rest h sq b,
     timers s' = p :: rest ->
     find_pieceCmp p s' = Some h ->
     Piece.block (ChessEngine.obj (engine s') p) = Some sq ->
     at_index (blocks s') (Block.index sq) = Some b ->
     exists s'',
       run_timer s' = Ok s'' /\ timers s'' = rest /\ paired s'' h b) /\
  (forall s' rest,
     timers s' = p :: rest ->
     find_pieceCmp p s' = None ->
     In p (ChessEngine.pieces (engine s')) ->
     run_timer s' = Ok (set_timers (rest ++ [p]) s')).
Proof.
  intros Hf Hin. split; [now apply move_not_rendered |]. split.
  - intros s' rest h sq b Ht Hf' Hsq Hb. unfold run_timer. rewrite Ht.
    rewrite (@move_rendered p (set_timers rest s') h sq Hf' Hsq).
    change (blocks (set_timers rest s')) with (blocks s'). rewrite Hb.
    eexists. split; [reflexivity |]. split; [reflexivity |].
    split; [apply pieceCmp_paired | apply blockCmp_paired].
  - intros s' rest Ht Hf' Hin'. unfold run_timer. rewrite Ht.
    now rewrite (@move_not_rendered p (set_timers rest s') Hf' Hin').
Qed.

(** ** The sweep *)

Unset Implicit Arguments.

Lemma Block_same_sym (a b : Block.t) : Block.same a b = Block.same b a.
Proof. unfold Block.same. apply Nat.eqb_sym. Qed.

Lemma Block_same_trans (a b c : Block.t) :
  Block.same a b = true -> Block.same b c = true -> Block.same a c = true.
Proof. unfold Block.same. rewrite !Nat.eqb_eq. congruence. Qed.

Lemma find_the_only (A : Type) (f : A -> bool) (l : list A) (a : A) :
  In a l -> f a = true ->
  (forall a', In a' l -> f a' = true -> a' = a) ->
  find f l = Some a.
Proof.
  induction l as [| a0 l IH]; intros Hin Hfa Huniq; [destruct Hin |].
  simpl. destruct (f a0) eqn:Hfa0.
  - f_equal. apply Huniq; [now left | exact Hfa0].
  - apply IH; [| exact Hfa | intros a' Hin'; apply Huniq; now right].
    destruct Hin as [-> | Hin]; [congruence | exact Hin].
Qed.

Lemma find_nowhere (A : Type) (f : A -> bool) (l : list A) :
  (forall a, In a l -> f a = false) -> find f l = None.
Proof.
  induction l as [| a0 l IH]; intro Hall; [reflexivity |].
  simpl. rewrite (Hall a0 (or_introl eq_refl)). apply IH.
  intros a Hin. apply Hall. now right.
Qed.

Lemma same_model_refl (s : SVGChessBoard) : same_model s s.
Proof. now repeat split. Qed.

Lemma same_model_trans (s1 s2 s3 : SVGChessBoard) :
  same_model s1 s2 -> same_model s2 s3 -> same_model s1 s3.
Proof.
  intros (He & Hp & Hb & Hd & Hpc & Hbc) (He' & Hp' & Hb' & Hd' & Hpc' & Hbc').
  repeat split; congruence.
Qed.

Lemma same_model_on_piece (h : PieceCmpRef) (m : SVGChessPiece.t -> SVGChessPiece.t)
  (s : SVGChessBoard) :
  (forall p, SVGChessPiece.piece (m p) = SVGChessPiece.piece p) ->
  same_model s (on_piece h m s).
Proof.
  intro Hm. repeat split. intro h'. rewrite pieceCmp_on_piece.
  destruct (Nat.eqb_spec h' h) as [-> | _]; [apply Hm | reflexivity].
Qed.

Lemma same_model_on_block (b : BlockCmpRef) (m : SVGChessBlock.t -> SVGChessBlock.t)
  (s : SVGChessBoard) :
  (forall q, SVGChessBlock.block (m q) = SVGChessBlock.block q) ->
  same_model s (on_block b m s).
Proof.
  intro Hm. repeat split. intro b'. rewrite blockCmp_on_block.
  destruct (Nat.eqb_spec b' b) as [-> | _]; [apply Hm | reflexivity].
Qed.

Lemma same_model_set_block (h : PieceCmpRef) (to : option BlockCmpRef)
  (s : SVGChessBoard) :
  same_model s (set_block h to s).
Proof.
  unfold set_block. destruct to as [b |].
  - eapply same_model_trans.
    + apply same_model_on_piece with (m := SVGChessPiece.with_block (Some b)).
      reflexivity.
    + apply same_model_on_block. reflexivity.
  - apply same_model_on_piece. reflexivity.
Qed.

Lemma same_model_sync_block (ps : list PieceCmpRef) (s : SVGChessBoard) (b : BlockCmpRef) :
  same_model s (sync_block ps s b).
Proof.
  unfold sync_block. destruct (find (occupies s b) ps) as [h |].
  - eapply same_model_trans; [apply same_model_set_block |].
    apply same_model_on_piece. reflexivity.
  - apply same_model_on_block. reflexivity.
Qed.

Lemma occupies_same_model (s s' : SVGChessBoard) (b : BlockCmpRef) (h : PieceCmpRef) :
  same_model s s' -> occupies s' b h = occupies s b h.
Proof.
  intros (He & _ & _ & _ & Hpc & Hbc). unfold occupies.
  now rewrite He, Hpc, Hbc.
Qed.

Lemma find_occupies_same_model (s s' : SVGChessBoard) (b : BlockCmpRef)
  (ps : list PieceCmpRef) :
  same_model s s' -> find (occupies s' b) ps = find (occupies s b) ps.
Proof.
  intro Hsm. induction ps as [| h ps IH]; [reflexivity |].
  simpl. now rewrite (occupies_same_model s s' b h Hsm), IH.
Qed.

Lemma occupies_square (s : SVGChessBoard) (b : BlockCmpRef) (h : PieceCmpRef) :
  occupies s b h = true <->
  exists sq, square_of s h = Some sq /\
             Block.same (SVGChessBlock.block (blockCmp s b)) sq = true.
Proof.
  unfold occupies, square_of.
  destruct (Piece.block _) as [sq |]; split.
  - intro H. now exists sq.
  - intros (sq' & [= <-] & H). exact H.
  - discriminate.
  - intros (sq' & [=] & _).
Qed.

Section Sweep.

Variable s0 : SVGChessBoard.
Hypothesis squares_once : squares_rendered_once s0.
Hypothesis pieces_apart : one_piece_per_square s0.

(** The first piece component found on the square of [b] is the only one. *)
Lemma find_on_square (h : PieceCmpRef) (b : BlockCmpRef) :
  In h (pieces s0) -> occupies s0 b h = true ->
  find (occupies s0 b) (pieces s0) = Some h.
Proof.
  intros Hin Hocc. apply find_the_only; [exact Hin | exact Hocc |].
  intros h' Hin' Hocc'.
  apply occupies_square in Hocc as (sq & Hsq & Hsame).
  apply occupies_square in Hocc' as (sq' & Hsq' & Hsame').
  pose proof pieces_apart as Hap. unfold one_piece_per_square in Hap.
  apply (Hap h' h sq' sq Hin' Hin Hsq' Hsq).
  apply Block_same_trans with (b := SVGChessBlock.block (blockCmp s0 b));
    [now rewrite Block_same_sym | exact Hsame].
Qed.

(** A piece component stands on the square of one rendered component only. *)
Lemma occupies_one_block (h : PieceCmpRef) (b b' : BlockCmpRef) :
  In b (blocks s0) -> In b' (blocks s0) ->
  occupies s0 b h = true -> occupies s0 b' h = true -> b' = b.
Proof.
  intros Hb Hb' Hocc Hocc'.
  apply occupies_square in Hocc as (sq & Hsq & Hsame).
  apply occupies_square in Hocc' as (sq' & Hsq' & Hsame').
  rewrite Hsq in Hsq'. injection Hsq' as <-.
  pose proof squares_once as Hon. unfold squares_rendered_once in Hon.
  apply (Hon b' b Hb' Hb).
  apply Block_same_trans with (b := sq); [exact Hsame' | now rewrite Block_same_sym].
Qed.

(** One step of the sweep keeps a pair that the logical model has. *)
Lemma sync_block_keeps_pair (s : SVGChessBoard) (h : PieceCmpRef) (b b' : BlockCmpRef) :
  same_model s0 s ->
  In h (pieces s0) -> In b (blocks s0) -> In b' (blocks s0) ->
  occupies s0 b h = true ->
  paired s h b \/ b' = b ->
  paired (sync_block (pieces s0) s b') h b.
Proof.
  intros Hsm Hh Hb Hb' Hocc Hcase. unfold sync_block.
  rewrite (find_occupies_same_model s0 s b' (pieces s0) Hsm).
  destruct (Nat.eq_dec b' b) as [-> | Hne].
  - rewrite (find_on_square h b Hh Hocc).
    split; [apply pieceCmp_paired | apply blockCmp_paired].
  - destruct Hcase as [[Hp Hq] | ->]; [| contradiction].
    destruct (find (occupies s0 b') (pieces s0)) as [h' |] eqn:Hfind.
    + assert (Hne' : h <> h').
      { intros <-. apply find_some in Hfind as [_ Hocc'].
        apply Hne. now apply (occupies_one_block h b b'). }
      split.
      * rewrite pieceCmp_on_piece.
        destruct (Nat.eqb_spec h h') as [Heq | _]; [contradiction |].
        rewrite pieceCmp_set_block.
        destruct (Nat.eqb_spec h h') as [Heq | _]; [contradiction | exact Hp].
      * change (blockCmp (on_piece h' (SVGChessPiece.reset 150)
                            (set_block h' (Some b') s)) b)
          with (blockCmp (set_block h' (Some b') s) b).
        rewrite blockCmp_set_block.
        destruct (Nat.eqb_spec b b') as [Heq | _]; [congruence | exact Hq].
    + split; [exact Hp |].
      rewrite blockCmp_on_block.
      destruct (Nat.eqb_spec b b') as [Heq | _]; [congruence | exact Hq].
Qed.

(** One step of the sweep keeps an empty square component empty, and
    empties the one it is at. *)
Lemma sync_block_keeps_empty (s : SVGChessBoard) (b b' : BlockCmpRef) :
  same_model s0 s ->
  (forall h, In h (pieces s0) -> occupies s0 b h = false) ->
  SVGChessBlock.piece (blockCmp s b) = None \/ b' = b ->
  SVGChessBlock.piece (blockCmp (sync_block (pieces s0) s b') b) = None.
Proof.
  intros Hsm Hfree Hcase. unfold sync_block.
  rewrite (find_occupies_same_model s0 s b' (pieces s0) Hsm).
  destruct (Nat.eq_dec b' b) as [-> | Hne].
  - rewrite (find_nowhere _ _ _ Hfree).
    rewrite blockCmp_on_block, Nat.eqb_refl. reflexivity.
  - destruct Hcase as [Hq | ->]; [| contradiction].
    destruct (find (occupies s0 b') (pieces s0)) as [h' |].
    + change (blockCmp (on_piece h' (SVGChessPiece.reset 150)
                          (set_block h' (Some b') s)) b)
        with (blockCmp (set_block h' (Some b') s) b).
      rewrite blockCmp_set_block.
      destruct (Nat.eqb_spec b b') as [Heq | _]; [congruence | exact Hq].
    + rewrite blockCmp_on_block.
      destruct (Nat.eqb_spec b b') as [Heq | _]; [congruence | exact Hq].
Qed.

Lemma sweep_same_model (bs : list BlockCmpRef) :
  forall s, same_model s0 s ->
    same_model s0 (fold_left (sync_block (pieces s0)) bs s).
Proof.
  induction bs as [| b' bs IH]; intros s Hsm; [exact Hsm |].
  simpl. apply IH. eapply same_model_trans; [exact Hsm |].
  apply same_model_sync_block.
Qed.

Lemma sweep_pairs (h : PieceCmpRef) (b : BlockCmpRef) (bs : list BlockCmpRef) :
  In h (pieces s0) -> In b (blocks s0) -> occupies s0 b h = true ->
  (forall b', In b' bs -> In b' (blocks s0)) ->
  forall s, same_model s0 s ->
    paired s h b \/ In b bs ->
    paired (fold_left (sync_block (pieces s0)) bs s) h b.
Proof.
  intros Hh Hb Hocc. induction bs as [| b' bs IH]; intros Hsub s Hsm Hcase.
  - destruct Hcase as [Hp | []]. exact Hp.
  - simpl. apply IH.
    + intros b'' Hin. apply Hsub. now right.
    + eapply same_model_trans; [exact Hsm | apply same_model_sync_block].
    + destruct Hcase as [Hp | [-> | Hin]].
      * left. apply sync_block_keeps_pair; auto. apply Hsub. now left.
      * left. apply sync_block_keeps_pair; auto.
      * now right.
Qed.

Lemma sweep_clears (b : BlockCmpRef) (bs : list BlockCmpRef) :
  (forall h, In h (pieces s0) -> occupies s0 b h = false) ->
  forall s, same_model s0 s ->
    SVGChessBlock.piece (blockCmp s b) = None \/ In b bs ->
    SVGChessBlock.piece (blockCmp (fold_left (sync_block (pieces s0)) bs s) b) = None.
Proof.
  intro Hfree. induction bs as [| b' bs IH]; intros s Hsm Hcase.
  - destruct Hcase as [Hq | []]. exact Hq.
  - simpl. apply IH.
    + eapply same_model_trans; [exact Hsm | apply same_model_sync_block].
    + destruct Hcase as [Hq | [-> | Hin]].
      * left. apply sync_block_keeps_empty; auto.
      * left. apply sync_block_keeps_empty; auto.
      * now right.
Qed.


End Sweep.

(** After the sweep every rendered piece whose square is rendered is paired
    with the component of that square, and every rendered square component
    with no rendered piece on its square has no piece. *)
Lemma syncPiecesToBlocks_reconciles (s : SVGChessBoard) :
  squares_rendered_once s -> one_piece_per_square s ->
  same_model s (syncPiecesToBlocks s) /\
  (forall h b, In h (pieces s) -> In b (blocks s) -> occupies s b h = true ->
     paired (syncPiecesToBlocks s) h b) /\
  (forall b, In b (blocks s) ->
     (forall h, In h (pieces s) -> occupies s b h = false) ->
     SVGChessBlock.piece (blockCmp (syncPiecesToBlocks s) b) = None).
Proof.
  intros Honce Hapart. unfold syncPiecesToBlocks. split; [| split].
  - apply sweep_same_model. apply same_model_refl.
  - intros h b Hh Hb Hocc.
    apply (sweep_pairs s Honce Hapart h b (blocks s)); auto.
    apply same_model_refl.
  - intros b Hb Hfree.
    apply (sweep_clears s b (blocks s)); auto.
    apply same_model_refl.
Qed.

(** ** Ending a drag *)

Lemma endDragAndDrop_ok (s : SVGChessBoard) (d : PieceCmpRef) :
  dragPiece s = Some d ->
  endDragAndDrop s
  = Ok (set_highlighted [] (set_dragPiece None (on_piece d SVGChessPiece.dragEnd s))).
Proof. intro Hd. unfold endDragAndDrop. now rewrite Hd. Qed.

(** What [endDragAndDrop] leaves: the session is gone, the held piece is
    at rest, and nothing else has changed. *)
Lemma endDragAndDrop_finalizes (s s' : SVGChessBoard) (d : PieceCmpRef) :
  dragPiece s = Some d ->
  endDragAndDrop s = Ok s' ->
  dragPiece s' = None /\ highlighted s' = [] /\
  at_rest (pieceCmp s' d) /\
  same_pairing s s'.
Proof.
  intros Hd H. rewrite (endDragAndDrop_ok s d Hd) in H. injection H as <-.
  split; [reflexivity |]. split; [reflexivity |]. split.
  - simpl. rewrite store_set_same. now repeat split.
  - do 5 (split; [reflexivity |]). intro h.
    change (pieceCmp (set_highlighted [] (set_dragPiece None
              (on_piece d SVGChessPiece.dragEnd s))) h)
      with (pieceCmp (on_piece d SVGChessPiece.dragEnd s) h).
    rewrite pieceCmp_on_piece. now destruct (Nat.eqb_spec h d) as [-> | _].
Qed.

Lemma same_pairing_refl (s : SVGChessBoard) : same_pairing s s.
Proof. now repeat split. Qed.

Lemma same_pairing_trans (s1 s2 s3 : SVGChessBoard) :
  same_pairing s1 s2 -> same_pairing s2 s3 -> same_pairing s1 s3.
Proof.
  intros (He & Hp & Hb & Hbc & Hc & Hpc) (He' & Hp' & Hb' & Hbc' & Hc' & Hpc').
  do 5 (split; [congruence |]). intro h.
  destruct (Hpc h) as [H1 H2], (Hpc' h) as [H1' H2']. split; congruence.
Qed.

Lemma same_pairing_on_piece (h : PieceCmpRef) (m : SVGChessPiece.t -> SVGChessPiece.t)
  (s : SVGChessBoard) :
  (forall p, SVGChessPiece.piece (m p) = SVGChessPiece.piece p /\
             SVGChessPiece.block (m p) = SVGChessPiece.block p) ->
  same_pairing s (on_piece h m s).
Proof.
  intro Hm. do 5 (split; [reflexivity |]). intro h'.
  rewrite pieceCmp_on_piece.
  destruct (Nat.eqb_spec h' h) as [-> | _]; [apply Hm | now split].
Qed.

Lemma mousedrag_flatMap_same_pairing (md : MouseEvent) (s s' : SVGChessBoard)
  (st : Stream MouseDrag) :
  mousedrag_flatMap md s = Ok (s', st) -> same_pairing s s'.
Proof.
  unfold mousedrag_flatMap. intro H.
  destruct (isDisabled s); [injection H as <- _; apply same_pairing_refl |].
  destruct (dragPiece s) as [h |]; [| injection H as <- _; apply same_pairing_refl].
  destruct (negb _); [injection H as <- _; apply same_pairing_refl |].
  destruct (ratioX s) as [rX |]; [| discriminate].
  destruct (ratioY s) as [rY |]; [| discriminate].
  simpl in H. injection H as <- _.
  apply (same_pairing_on_piece h SVGChessPiece.dragStart s). now split.
Qed.

Lemma touchdrag_flatMap_same_pairing (md : TouchEvent) (s s' : SVGChessBoard)
  (st : Stream TouchDrag) :
  touchdrag_flatMap pointToIndex md s = Ok (s', st) -> same_pairing s s'.
Proof.
  unfold touchdrag_flatMap. intro H.
  destruct (isDisabled s); [injection H as <- _; apply same_pairing_refl |].
  destruct (touches md) as [| t0 more]; [injection H as <- _; apply same_pairing_refl |].
  destruct (ratioX s) as [rX |] eqn:HrX; [| discriminate].
  destruct (ratioY s) as [rY |] eqn:HrY; [| discriminate].
  simpl in H.
  destruct (filter_at s _ (pieces s)) as [found |]; [| discriminate].
  simpl in H. destruct (hd_error found) as [h |].
  - destruct (negb _); [injection H as <- _; now repeat split |].
    change (ratioX (set_dragPiece (Some h) s)) with (ratioX s) in H.
    change (ratioY (set_dragPiece (Some h) s)) with (ratioY s) in H.
    rewrite HrX, HrY in H. simpl in H. injection H as <- _.
    apply (same_pairing_on_piece h SVGChessPiece.dragStart (set_dragPiece (Some h) s)).
    now split.
  - injection H as <- _. now repeat split.
Qed.

Lemma drag_next_same_pairing (pos : Pos) (s s' : SVGChessBoard) :
  drag_next pos s = Ok s' -> same_pairing s s'.
Proof.
  unfold drag_next. destruct (dragPiece s) as [h |]; [| discriminate].
  simpl. intro H. injection H as <-.
  apply same_pairing_on_piece. now split.
Qed.

Lemma drag_steps_same_pairing (s s' : SVGChessBoard) :
  drag_steps pointToIndex s s' -> same_pairing s s'.
Proof.
  induction 1 as [s | s s1 s2 Hstep _ IH]; [apply same_pairing_refl |].
  apply same_pairing_trans with (s2 := s1); [| exact IH].
  destruct Hstep as [h s | md s s' st H | md s s' st H | pos s s' H].
  - now repeat split.
  - exact (mousedrag_flatMap_same_pairing md s s' st H).
  - exact (touchdrag_flatMap_same_pairing md s s' st H).
  - exact (drag_next_same_pairing pos s s' H).
Qed.

(** ** Drag sessions *)

Lemma mousedrag_flatMap_keeps_dragPiece (md : MouseEvent) (s s' : SVGChessBoard)
  (st : Stream MouseDrag) :
  mousedrag_flatMap md s = Ok (s', st) -> dragPiece s' = dragPiece s.
Proof.
  unfold mousedrag_flatMap. intro H.
  destruct (isDisabled s); [now injection H as <- _ |].
  destruct (dragPiece s) as [h |] eqn:Hd; [| injection H as <- _; exact Hd].
  destruct (negb _); [injection H as <- _; exact Hd |].
  destruct (ratioX s) as [rX |]; [| discriminate].
  destruct (ratioY s) as [rY |]; [| discriminate].
  simpl in H. injection H as <- _. exact Hd.
Qed.

(** The board after the piece component [h] was lifted and its legal
    destinations highlighted. *)
Lemma lift_and_highlight (h : PieceCmpRef) (s : SVGChessBoard) :
  highlight (moves_of h (on_piece h SVGChessPiece.dragStart s))
    (on_piece h SVGChessPiece.dragStart s)
  = set_highlighted
      (ChessEngine.moves (engine s) (SVGChessPiece.piece (pieceCmp s h)))
      (on_piece h SVGChessPiece.dragStart s).
Proof.
  unfold highlight, moves_of. rewrite pieceCmp_on_piece, Nat.eqb_refl. reflexivity.
Qed.

(** Lifting a piece lets no other piece down. *)
Lemma lift_keeps_lifted (h d : PieceCmpRef) (v : list Block.t) (s : SVGChessBoard) :
  SVGChessPiece.isDragged (pieceCmp s d) = true ->
  SVGChessPiece.isDragged
    (pieceCmp (set_highlighted v (on_piece h SVGChessPiece.dragStart s)) d) = true.
Proof.
  intro Hl.
  change (pieceCmp (set_highlighted v (on_piece h SVGChessPiece.dragStart s)) d)
    with (pieceCmp (on_piece h SVGChessPiece.dragStart s) d).
  rewrite pieceCmp_on_piece. destruct (Nat.eqb d h); [reflexivity | exact Hl].
Qed.

(** C3, as amended.  A start that arrives while interaction is blocked
    changes nothing and gives the empty stream.  A start that arrives while
    a piece is held is not rejected, and it ends nothing: every piece that
    was lifted stays lifted and no pairing changes.  The mousedown callback
    keeps the drag reference; it either changes nothing and gives the empty
    stream, or it lifts the referenced piece, replaces the highlighted
    squares by exactly that piece's legal destinations and starts a further
    stream.  The touchstart callback makes the first rendered piece on the
    touched square, or none, the drag reference; it then either does no
    more and gives the empty stream, or lifts that piece, replaces the
    highlighted squares by its legal destinations and starts a stream. *)
Theorem start_is_noop_only_while_blocked (s : SVGChessBoard) :
  (isDisabled s = true ->
   forall md tmd,
     mousedrag_flatMap md s = Ok (s, stream_empty) /\
     touchdrag_flatMap pointToIndex tmd s = Ok (s, stream_empty)) /\
  (forall md s' st,
     mousedrag_flatMap md s = Ok (s', st) ->
     dragPiece s' = dragPiece s /\
     same_pairing s s' /\
     (forall d, SVGChessPiece.isDragged (pieceCmp s d) = true ->
                SVGChessPiece.isDragged (pieceCmp s' d) = true) /\
     ((st = stream_empty /\ s' = s) \/
      exists h rX rY,
        dragPiece s = Some h /\ ratioX s = Ok rX /\ ratioY s = Ok rY /\
        st = stream_moves {| lastX := pageX md; lastY := pageY md;
                             viewPortRatioX := rX; viewPortRatioY := rY |} /\
        s' = set_highlighted
               (ChessEngine.moves (engine s) (SVGChessPiece.piece (pieceCmp s h)))
               (on_piece h SVGChessPiece.dragStart s))) /\
  (isDisabled s = false ->
   forall t0 more changed s' st,
     touchdrag_flatMap pointToIndex
       {| touches := t0 :: more; changedTouches := changed |} s = Ok (s', st) ->
     exists rX rY found,
       ratioX s = Ok rX /\ ratioY s = Ok rY /\
       filter_at s
         (pointToIndex
            (PrimFloat.mul (PrimFloat.sub (t_pageX t0)
                              (left (getBoundingClientRect (boardElRef s)))) rX)
            (PrimFloat.mul (PrimFloat.sub (t_pageY t0)
                              (top (getBoundingClientRect (boardElRef s)))) rY))
         (pieces s) = Ok found /\
       dragPiece s' = hd_error found /\
       same_pairing s s' /\
       (forall d, SVGChessPiece.isDragged (pieceCmp s d) = true ->
                  SVGChessPiece.isDragged (pieceCmp s' d) = true) /\
       ((st = stream_empty /\ s' = set_dragPiece (hd_error found) s) \/
        exists h,
          hd_error found = Some h /\
          st = stream_moves
                 {| t_rect := getBoundingClientRect (boardElRef s);
                    t_lastX := PrimFloat.sub (t_pageX t0)
                                 (left (getBoundingClientRect (boardElRef s)));
                    t_lastY := PrimFloat.sub (t_pageY t0)
                                 (top (getBoundingClientRect (boardElRef s)));
                    t_viewPortRatioX := rX; t_viewPortRatioY := rY |} /\
          s' = set_highlighted
                 (ChessEngine.moves (engine s) (SVGChessPiece.piece (pieceCmp s h)))
                 (on_piece h SVGChessPiece.dragStart (set_dragPiece (Some h) s)))).
Proof.
  split; [| split].
  - intros Hdis md tmd. unfold mousedrag_flatMap, touchdrag_flatMap.
    rewrite Hdis. now split.
  - intros md s' st H.
    split; [exact (@mousedrag_flatMap_keeps_dragPiece md s s' st H) |].
    split; [exact (mousedrag_flatMap_same_pairing md s s' st H) |].
    destruct st as [| c].
    + assert (Hs : s' = s).
      { unfold mousedrag_flatMap in H.
        destruct (isDisabled s); [now injection H as <- |].
        destruct (dragPiece s) as [h |]; [| now injection H as <-].
        destruct (negb _); [now injection H as <- |].
        destruct (ratioX s) as [rX |]; [| discriminate].
        destruct (ratioY s) as [rY |]; discriminate. }
      subst s'. split; [now intros d Hl | now left].
    + destruct (@mousedrag_flatMap_moves md s s' c H)
        as (h & rX & rY & Hd & HrX & HrY & -> & ->).
      rewrite lift_and_highlight. split.
      * intros d Hl. now apply lift_keeps_lifted.
      * right. exists h, rX, rY. now repeat split.
  - intros Hen t0 more changed s' st H.
    unfold touchdrag_flatMap in H. rewrite Hen in H. cbn [touches] in H.
    destruct (ratioX s) as [rX |] eqn:HrX; [| discriminate].
    destruct (ratioY s) as [rY |] eqn:HrY; [| discriminate].
    cbn [bind] in H.
    destruct (filter_at s _ (pieces s)) as [found |] eqn:Hf; [| discriminate].
    exists rX, rY, found.
    do 2 (split; [reflexivity |]). split; [exact Hf |].
    cbn [bind] in H.
    change (dragPiece (set_dragPiece (hd_error found) s)) with (hd_error found) in H.
    destruct (hd_error found) as [h |].
    + change (engine (set_dragPiece (Some h) s)) with (engine s) in H.
      destruct (negb _).
      * injection H as <- <-. split; [reflexivity |].
        split; [now repeat split |]. split; [now intros d Hl | now left].
      * change (ratioX (set_dragPiece (Some h) s)) with (ratioX s) in H.
        change (ratioY (set_dragPiece (Some h) s)) with (ratioY s) in H.
        rewrite HrX, HrY in H. cbn [bind] in H. injection H as <- <-.
        rewrite lift_and_highlight.
        split; [reflexivity |]. split; [| split].
        -- apply (same_pairing_trans s (set_dragPiece (Some h) s)).
           ++ now repeat split.
           ++ apply (same_pairing_trans _
                       (on_piece h SVGChessPiece.dragStart (set_dragPiece (Some h) s))).
              ** apply same_pairing_on_piece. now split.
              ** now repeat split.
        -- intros d Hl.
           now apply (lift_keeps_lifted h d _ (set_dragPiece (Some h) s)).
        -- right. exists h. now repeat split.
    + injection H as <- <-. split; [reflexivity |].
      split; [now repeat split |]. split; [now intros d Hl | now left].
Qed.

(** ** Dropping *)

Lemma dropPiece_on_block (mu : DropEvent) (s : SVGChessBoard) (h : PieceCmpRef)
  (i : Z) (b : BlockCmpRef) :
  dragPiece s = Some h ->
  drop_index pointToIndex mu s = Ok i -> at_index (blocks s) i = Some b ->
  dropPiece pointToIndex mu s
  = Ok (set_ctrlCalls
          (ctrlCalls s ++
             [{| req_piece := SVGChessPiece.piece (pieceCmp s h);
                 req_block := SVGChessBlock.block (blockCmp s b) |}]) s).
Proof.
  intros Hd Hi Hb. unfold dropPiece. rewrite Hi. cbn [bind].
  now rewrite Hb, Hd.
Qed.

Lemma dropPiece_off_board (mu : DropEvent) (s : SVGChessBoard) (i : Z) :
  drop_index pointToIndex mu s = Ok i -> at_index (blocks s) i = None ->
  dropPiece pointToIndex mu s = endDragAndDrop s.
Proof.
  intros Hi Hb. unfold dropPiece. rewrite Hi. cbn [bind]. now rewrite Hb.
Qed.

(** C4.  A drop at a point whose index has no square component ends the
    drag without a call of the move authority: the drag reference and the
    highlighting are cleared, and the piece is at rest on the square
    component it had before the drag; if it was at rest there before the
    drag, it is as it was. *)
Theorem drop_outside_board_reverts (s0 s : SVGChessBoard) (mu : DropEvent)
  (h : PieceCmpRef) (i : Z) :
  drag_steps pointToIndex s0 s ->
  dragPiece s = Some h ->
  drop_index pointToIndex mu s = Ok i ->
  at_index (blocks s) i = None ->
  exists s1,
    dropPiece pointToIndex mu s = Ok s1 /\
    ctrlCalls s1 = ctrlCalls s /\ ctrlCalls s1 = ctrlCalls s0 /\
    dragPiece s1 = None /\ highlighted s1 = [] /\
    SVGChessPiece.block (pieceCmp s1 h) = SVGChessPiece.block (pieceCmp s0 h) /\
    at_rest (pieceCmp s1 h) /\
    (at_rest (pieceCmp s0 h) -> pieceCmp s1 h = pieceCmp s0 h).
Proof.
  intros Hsteps Hd Hi Hb.
  rewrite (dropPiece_off_board mu s i Hi Hb).
  rewrite (endDragAndDrop_ok s h Hd). eexists. split; [reflexivity |].
  destruct (endDragAndDrop_finalizes s _ h Hd (endDragAndDrop_ok s h Hd))
    as (Hd1 & Hh1 & Hrest & Hpair).
  pose proof (same_pairing_trans _ _ _ (drag_steps_same_pairing s0 s Hsteps) Hpair)
    as (_ & _ & _ & _ & Hc & Hpc).
  destruct (Hpc h) as [Hpiece Hblock].
  split; [reflexivity |]. split; [exact Hc |].
  split; [exact Hd1 |]. split; [exact Hh1 |].
  split; [exact Hblock |]. split; [exact Hrest |].
  intros (Hx0 & Hy0 & Hl0). destruct Hrest as (Hx & Hy & Hl).
  destruct (pieceCmp _ h) as [p1 b1 x1 y1 l1], (pieceCmp s0 h) as [p0 b0 x0 y0 l0].
  simpl in *. congruence.
Qed.

(** C2.  When the authority reports the dropped move invalid, the piece
    component is on the square component it had before the drag, no
    pairing and nothing of the logical model has changed, and the session
    is over: the piece is no longer lifted, the drag reference and the
    highlighting are cleared. *)
Theorem invalid_drop_rolls_back (s0 s : SVGChessBoard) (mu : DropEvent)
  (h : PieceCmpRef) (i : Z) (b : BlockCmpRef) (mv : ChessMove.t) :
  drag_steps pointToIndex s0 s ->
  dragPiece s = Some h ->
  drop_index pointToIndex mu s = Ok i ->
  at_index (blocks s) i = Some b ->
  ChessMove.invalid mv = true ->
  exists s1 s2,
    dropPiece pointToIndex mu s = Ok s1 /\
    ctrlCalls s1 = ctrlCalls s ++
      [{| req_piece := SVGChessPiece.piece (pieceCmp s h);
          req_block := SVGChessBlock.block (blockCmp s b) |}] /\
    dropPiece_then mv s1 = Ok s2 /\
    SVGChessPiece.block (pieceCmp s2 h) = SVGChessPiece.block (pieceCmp s0 h) /\
    (forall h', SVGChessPiece.block (pieceCmp s2 h')
                = SVGChessPiece.block (pieceCmp s0 h')) /\
    blockCmp s2 = blockCmp s0 /\ engine s2 = engine s0 /\
    SVGChessPiece.isDragged (pieceCmp s2 h) = false /\
    dragPiece s2 = None /\ highlighted s2 = [].
Proof.
  intros Hsteps Hd Hi Hb Hinv.
  rewrite (dropPiece_on_block mu s h i b Hd Hi Hb).
  eexists. eexists. split; [reflexivity |]. split; [reflexivity |].
  set (s1 := set_ctrlCalls _ s).
  assert (Hd1 : dragPiece s1 = Some h) by exact Hd.
  unfold dropPiece_then. rewrite Hinv, Hd1. cbn [bind defined].
  set (s1' := on_piece h (SVGChessPiece.reset 150) s1).
  assert (Hd1' : dragPiece s1' = Some h) by exact Hd.
  rewrite (endDragAndDrop_ok s1' h Hd1').
  set (s2 := set_highlighted [] (set_dragPiece None
               (on_piece h SVGChessPiece.dragEnd s1'))).
  destruct (endDragAndDrop_finalizes s1' s2 h Hd1' (endDragAndDrop_ok s1' h Hd1'))
    as (Hd2 & Hh2 & (_ & _ & Hl2) & (He2 & _ & _ & Hbc2 & _ & Hpc2)).
  destruct (drag_steps_same_pairing s0 s Hsteps) as (He & _ & _ & Hbc & _ & Hpc).
  split; [reflexivity |].
  assert (Hblocks : forall h', SVGChessPiece.block (pieceCmp s1' h')
                               = SVGChessPiece.block (pieceCmp s0 h')).
  { intro h'. unfold s1'. rewrite pieceCmp_on_piece.
    destruct (Nat.eqb_spec h' h) as [-> | _]; apply (Hpc _). }
  assert (Hall : forall h', SVGChessPiece.block (pieceCmp s2 h')
                            = SVGChessPiece.block (pieceCmp s0 h')).
  { intro h'. rewrite <- (Hblocks h'). apply (Hpc2 h'). }
  split; [exact (Hall h) |]. split; [exact Hall |].
  split; [exact (eq_trans Hbc2 Hbc) |].
  split; [exact (eq_trans He2 He) |].
  split; [exact Hl2 |]. split; [exact Hd2 | exact Hh2].
Qed.


(** ** After the authority has answered *)

Lemma dropPiece_then_castling (mv : ChessMove.t) (s : SVGChessBoard) :
  ChessMove.invalid mv = false -> ChessMove.isCastlingMove mv = true ->
  dropPiece_then mv s = endDragAndDrop (syncPiecesToBlocks s).
Proof. intros Hinv Hc. unfold dropPiece_then. now rewrite Hinv, Hc. Qed.

(** C5.  On a valid castling move the callback runs the whole sweep before
    it ends the drag.  Afterwards every rendered piece component is paired
    with the rendered square component whose logical square is, as an
    object, the square of its piece, and every rendered square component on
    whose square no rendered piece stands has no piece. *)
Theorem castling_runs_full_sweep (s : SVGChessBoard) (mv : ChessMove.t)
  (d : PieceCmpRef) :
  ChessMove.invalid mv = false ->
  ChessMove.isCastlingMove mv = true ->
  dragPiece s = Some d ->
  squares_rendered_once s ->
  one_piece_per_square s ->
  squares_of_pieces_rendered s ->
  exists s',
    dropPiece_then mv s = Ok s' /\
    endDragAndDrop (syncPiecesToBlocks s) = Ok s' /\
    (forall h sq, In h (pieces s) -> square_of s h = Some sq ->
       exists b, In b (blocks s) /\
         Block.same (SVGChessBlock.block (blockCmp s b)) sq = true /\
         paired s' h b) /\
    (forall b, In b (blocks s) ->
       (forall h, In h (pieces s) -> occupies s b h = false) ->
       SVGChessBlock.piece (blockCmp s' b) = None).
Proof.
  intros Hinv Hcastle Hd Honce Hapart Hrendered.
  destruct (syncPiecesToBlocks_reconciles s Honce Hapart) as (Hsm & Hpairs & Hclears).
  assert (Hd' : dragPiece (syncPiecesToBlocks s) = Some d).
  { destruct Hsm as (_ & _ & _ & Hdp & _). now rewrite Hdp. }
  rewrite (dropPiece_then_castling mv s Hinv Hcastle).
  pose proof (endDragAndDrop_ok _ d Hd') as Hend.
  set (s' := set_highlighted [] (set_dragPiece None
               (on_piece d SVGChessPiece.dragEnd (syncPiecesToBlocks s)))) in Hend.
  destruct (endDragAndDrop_finalizes _ s' d Hd' Hend)
    as (_ & _ & _ & (_ & _ & _ & Hbc & _ & Hpc)).
  exists s'. split; [exact Hend |]. split; [exact Hend |]. split.
  - intros h sq Hh Hsq.
    destruct (Hrendered h sq Hh Hsq) as (b & Hb & Hsame).
    exists b. split; [exact Hb |]. split; [exact Hsame |].
    assert (Hocc : occupies s b h = true).
    { apply occupies_square. now exists sq. }
    destruct (Hpairs h b Hh Hb Hocc) as [Hp Hq]. split.
    + rewrite <- Hp. apply (Hpc h).
    + now rewrite Hbc.
  - intros b Hb Hfree. rewrite Hbc. now apply Hclears.
Qed.




(** * Further properties of the component *)

(** ** Subscriptions over the life of the component *)

Lemma clearSubscriptions_loop_frame (fuel : nat) :
  forall s, only_subscriptions_differ s (clearSubscriptions_loop fuel s).
Proof.
  induction fuel as [| fuel IH]; intro s; [now repeat split |].
  simpl. destruct (pop (rxWaste s)) as [[rest sub] |]; [| now repeat split].
  exact (IH (unsubscribe sub (set_rxWaste rest s))).
Qed.

(** [clearSubscriptions] empties [rxWaste], detaches the listeners recorded
    there and no other, changes nothing else of the component, and a second
    call changes nothing at all. *)
Theorem clearSubscriptions_detaches_what_is_recorded (s : SVGChessBoard) :
  rxWaste (clearSubscriptions s) = [] /\
  (forall l, In l (listeners (clearSubscriptions s)) <->
     In l (listeners s) /\
     forall sub, In sub (rxWaste s) -> sub_id l <> sub_id sub) /\
  only_subscriptions_differ s (clearSubscriptions s) /\
  clearSubscriptions (clearSubscriptions s) = clearSubscriptions s /\
  ngOnDestroy s = clearSubscriptions s.
Proof.
  destruct (clearSubscriptions_spec s) as (Hw & _ & Hl).
  split; [exact Hw |]. split; [exact Hl |].
  split; [apply clearSubscriptions_loop_frame |].
  split; [| reflexivity].
  unfold clearSubscriptions at 1. rewrite Hw. reflexivity.
Qed.

(** What the life cycle keeps: the attached listeners are the recorded
    ones, and these are none or the six of one [newGame]. *)
Lemma lifecycle_step_subscriptions (s : SVGChessBoard) (c : Lifecycle) :
  listeners s = rxWaste s ->
  (rxWaste s = [] \/ exists n, rxWaste s = fresh_subs n) ->
  listeners (lifecycle_step s c) = rxWaste (lifecycle_step s c) /\
  (rxWaste (lifecycle_step s c) = [] \/
   exists n, rxWaste (lifecycle_step s c) = fresh_subs n).
Proof.
  intros Heq Hshape.
  assert (Hown : listeners_owned s).
  { intros l Hin. exists l. rewrite <- Heq. now split. }
  assert (Hclear : forall s0, listeners s0 = listeners s -> rxWaste s0 = rxWaste s ->
            listeners (clearSubscriptions s0) = rxWaste (clearSubscriptions s0) /\
            rxWaste (clearSubscriptions s0) = []).
  { intros s0 Hl0 Hw0.
    assert (Hown0 : listeners_owned s0).
    { intros l Hin. rewrite Hl0 in Hin. rewrite Hw0. now apply Hown. }
    destruct (clearSubscriptions_spec s0) as (Hw & _ & _).
    rewrite Hw, (@clearSubscriptions_drains s0 Hown0). now split. }
  destruct c as [| st |]; cbn [lifecycle_step].
  - destruct (@newGame_subs s Hown) as (Hw & Hl & _).
    rewrite Hw, Hl. split; [reflexivity |]. right. now exists (nextSub s).
  - destruct st; cbn [onStateChanged]; try (now split);
      match goal with
      | |- context [clearSubscriptions ?s0] =>
        destruct (Hclear s0 eq_refl eq_refl) as [H1 H2]; split; [exact H1 | now left]
      end.
  - unfold ngOnDestroy.
    destruct (Hclear s eq_refl eq_refl) as [H1 H2]. split; [exact H1 | now left].
Qed.

(** Listeners never pile up: on a component that starts with no
    subscription, after any sequence of [newGame], [onStateChanged] and
    [ngOnDestroy] the attached listeners are exactly those recorded in
    [rxWaste], and there are none of them or the six of the last
    [newGame]. *)
Theorem subscriptions_never_accumulate (cs : list Lifecycle) (s : SVGChessBoard) :
  rxWaste s = [] -> listeners s = [] ->
  listeners (lifecycle_run cs s) = rxWaste (lifecycle_run cs s) /\
  (rxWaste (lifecycle_run cs s) = [] \/
   exists n, rxWaste (lifecycle_run cs s) = fresh_subs n) /\
  List.length (listeners (lifecycle_run cs s)) <= 6.
Proof.
  intros Hw Hl.
  assert (Hinv : listeners (lifecycle_run cs s) = rxWaste (lifecycle_run cs s) /\
                 (rxWaste (lifecycle_run cs s) = [] \/
                  exists n, rxWaste (lifecycle_run cs s) = fresh_subs n)).
  { assert (H0 : listeners s = rxWaste s /\
                 (rxWaste s = [] \/ exists n, rxWaste s = fresh_subs n)).
    { rewrite Hw, Hl. split; [reflexivity | now left]. }
    clear Hw Hl. revert s H0. unfold lifecycle_run.
    induction cs as [| c cs IH]; intros s [Heq Hshape]; [now split |].
    simpl. apply IH. now apply lifecycle_step_subscriptions. }
  destruct Hinv as [Heq Hshape]. split; [exact Heq |]. split; [exact Hshape |].
  rewrite Heq. destruct Hshape as [-> | [n ->]]; simpl; lia.
Qed.

(** [newGame] clears the busy and the blocked flag and the banner and
    records its six subscriptions, in the order it makes them.  It does not
    touch the drag in progress, the pending calls of the move authority,
    the pending timers or any component. *)
Theorem newGame_resets_flags_not_the_drag (s : SVGChessBoard) :
  isBusy (fst (newGame s)) = false /\
  isDisabled (fst (newGame s)) = false /\
  banner (fst (newGame s)) = None /\
  rxWaste (fst (newGame s)) = fresh_subs (nextSub s) /\
  dragPiece (fst (newGame s)) = dragPiece s /\
  highlighted (fst (newGame s)) = highlighted s /\
  ctrlCalls (fst (newGame s)) = ctrlCalls s /\
  timers (fst (newGame s)) = timers s /\
  pieceCmp (fst (newGame s)) = pieceCmp s /\
  blockCmp (fst (newGame s)) = blockCmp s /\
  engine (fst (newGame s)) = engine s /\
  snd (newGame s) = Promise_resolve tt.
Proof.
  change (fst (newGame s)) with (newGame_register (clearSubscriptions s)).
  destruct (newGame_register_subs (clearSubscriptions s)) as (Hw & _ & _).
  destruct (clearSubscriptions_spec s) as (Hw0 & Hn0 & _).
  pose proof (clearSubscriptions_loop_frame (List.length (rxWaste s)) s) as Hframe.
  fold (clearSubscriptions s) in Hframe.
  destruct Hframe as (He & Hd & _ & _ & _ & Hh & _ & _ & _ & Hbc & Hpc & _ & Ht & Hc).
  rewrite Hw, Hw0, Hn0.
  do 3 (split; [reflexivity |]). split; [reflexivity |].
  split; [exact Hd |]. split; [exact Hh |]. split; [exact Hc |].
  split; [exact Ht |]. split; [exact Hpc |]. split; [exact Hbc |].
  split; [exact He | reflexivity].
Qed.

(** [onStateChanged] on a game-over state puts up the GAME OVER banner (a
    draw, or the winner by name on checkmate) and cancels every recorded
    subscription; on any other state it changes nothing.  It never ends a
    drag in progress and never changes the blocked flag. *)
Theorem onStateChanged_game_over (st : GAME_STATE) (s : SVGChessBoard) :
  (is_game_over st = true ->
   rxWaste (onStateChanged st s) = [] /\
   (listeners_owned s -> listeners (onStateChanged st s) = []) /\
   exists msg,
     banner (onStateChanged st s) = Some {| title := "GAME OVER"; message := msg |} /\
     (st <> CHECKMATE -> msg = "It's a draw!"%string) /\
     (st = CHECKMATE -> ChessEngine.winner (engine s) = BLACK ->
      msg = "Black wins!"%string) /\
     (st = CHECKMATE -> ChessEngine.winner (engine s) = WHITE ->
      msg = "White wins!"%string)) /\
  (is_game_over st = false -> onStateChanged st s = s) /\
  dragPiece (onStateChanged st s) = dragPiece s /\
  highlighted (onStateChanged st s) = highlighted s /\
  isDisabled (onStateChanged st s) = isDisabled s /\
  ctrlCalls (onStateChanged st s) = ctrlCalls s.
Proof.
  assert (Hover : forall b,
            rxWaste (clearSubscriptions (set_banner b s)) = [] /\
            (listeners_owned s -> listeners (clearSubscriptions (set_banner b s)) = []) /\
            banner (clearSubscriptions (set_banner b s)) = b /\
            dragPiece (clearSubscriptions (set_banner b s)) = dragPiece s /\
            highlighted (clearSubscriptions (set_banner b s)) = highlighted s /\
            isDisabled (clearSubscriptions (set_banner b s)) = isDisabled s /\
            ctrlCalls (clearSubscriptions (set_banner b s)) = ctrlCalls s).
  { intro b.
    destruct (clearSubscriptions_spec (set_banner b s)) as (Hw & _ & _).
    pose proof (clearSubscriptions_loop_frame
                  (List.length (rxWaste (set_banner b s))) (set_banner b s)) as Hframe.
    fold (clearSubscriptions (set_banner b s)) in Hframe.
    destruct Hframe as (_ & Hd & _ & Hdis & Hb & Hh & _ & _ & _ & _ & _ & _ & _ & Hc).
    split; [exact Hw |]. split.
    - intro Hown. apply (@clearSubscriptions_drains (set_banner b s)). exact Hown.
    - now repeat split. }
  split; [| split].
  - intro Hgo.
    destruct st; try discriminate Hgo; cbn [onStateChanged];
      match goal with
      | |- context [set_banner ?b s] =>
        destruct (Hover b) as (Hw & Hl & Hb & _)
      end;
      (split; [exact Hw |]); (split; [exact Hl |]);
      eexists; (split; [exact Hb |]); repeat split; try congruence;
      intros _ Hwin; rewrite Hwin; reflexivity.
  - intro Hgo. destruct st; try discriminate Hgo. reflexivity.
  - destruct st; cbn [onStateChanged]; try (now repeat split);
      match goal with
      | |- context [set_banner ?b s] =>
        destruct (Hover b) as (_ & _ & _ & Hd & Hh & Hdis & Hc)
      end; now repeat split.
Qed.

(** ** The callback of a drop *)

Lemma endDragAndDrop_inv (s s' : SVGChessBoard) :
  endDragAndDrop s = Ok s' -> exists d, dragPiece s = Some d.
Proof.
  unfold endDragAndDrop. destruct (dragPiece s) as [d |]; [| discriminate].
  intros _. now exists d.
Qed.

Lemma endDragAndDrop_without_drag (s : SVGChessBoard) :
  dragPiece s = None -> endDragAndDrop s = TypeError.
Proof. intro Hd. unfold endDragAndDrop. now rewrite Hd. Qed.

Lemma dropPiece_then_without_drag (mv : ChessMove.t) (s : SVGChessBoard) :
  dragPiece s = None -> dropPiece_then mv s = TypeError.
Proof.
  intro Hd. unfold dropPiece_then.
  destruct (ChessMove.invalid mv); [now rewrite Hd |].
  destruct (ChessMove.isCastlingMove mv); cbn [bind].
  - apply endDragAndDrop_without_drag.
    destruct (sweep_same_model s (blocks s) s (same_model_refl s))
      as (_ & _ & _ & Hdp & _).
    unfold syncPiecesToBlocks. now rewrite Hdp.
  - now apply endDragAndDrop_without_drag.
Qed.

(** The callback of a drop ends the drag whatever the answer was, so it
    cannot run a second time: with the drag reference cleared, the callback
    (and [endDragAndDrop]) throws.  A second answer for the same drag, or an
    answer that arrives after the drag was ended, is not absorbed. *)
Theorem drop_callback_runs_once (mv : ChessMove.t) (s s' : SVGChessBoard) :
  dropPiece_then mv s = Ok s' ->
  dragPiece s' = None /\ highlighted s' = [] /\
  (forall mv', dropPiece_then mv' s' = TypeError) /\
  endDragAndDrop s' = TypeError.
Proof.
  intro H.
  assert (Hend : exists s1, endDragAndDrop s1 = Ok s').
  { unfold dropPiece_then in H.
    destruct (ChessMove.invalid mv).
    - destruct (dragPiece s) as [h |]; [| discriminate]. cbn [bind defined] in H.
      eexists. exact H.
    - destruct (ChessMove.isCastlingMove mv); cbn [bind] in H; eexists; exact H. }
  destruct Hend as (s1 & Hend).
  destruct (endDragAndDrop_inv s1 s' Hend) as (d & Hd).
  destruct (endDragAndDrop_finalizes s1 s' d Hd Hend) as (Hd' & Hh' & _).
  split; [exact Hd' |]. split; [exact Hh' |]. split.
  - intro mv'. now apply dropPiece_then_without_drag.
  - now apply endDragAndDrop_without_drag.
Qed.

(** A drop on a square does not end the drag: until the answer arrives
    the piece stays held and everything but the record of calls is as it
    was, so another drop in the meantime calls the move authority again
    for the same piece. *)
Theorem drop_keeps_drag_until_answer (s : SVGChessBoard) (mu : DropEvent)
  (h : PieceCmpRef) (i : Z) (b : BlockCmpRef) :
  dragPiece s = Some h ->
  drop_index pointToIndex mu s = Ok i ->
  at_index (blocks s) i = Some b ->
  exists s1,
    drop_next pointToIndex mu s = Ok s1 /\
    dragPiece s1 = Some h /\ highlighted s1 = highlighted s /\
    pieceCmp s1 = pieceCmp s /\ blockCmp s1 = blockCmp s /\
    forall mu2 i2 b2,
      drop_index pointToIndex mu2 s1 = Ok i2 ->
      at_index (blocks s1) i2 = Some b2 ->
      exists s2,
        drop_next pointToIndex mu2 s1 = Ok s2 /\
        ctrlCalls s2 = ctrlCalls s ++
          [ {| req_piece := SVGChessPiece.piece (pieceCmp s h);
               req_block := SVGChessBlock.block (blockCmp s b) |};
            {| req_piece := SVGChessPiece.piece (pieceCmp s h);
               req_block := SVGChessBlock.block (blockCmp s b2) |} ].
Proof.
  intros Hd Hi Hb. unfold drop_next at 1. rewrite Hd.
  rewrite (dropPiece_on_block mu s h i b Hd Hi Hb).
  eexists. split; [reflexivity |].
  do 4 (split; [first [exact Hd | reflexivity] |]).
  intros mu2 i2 b2 Hi2 Hb2.
  set (s1 := set_ctrlCalls _ s) in *.
  assert (Hd1 : dragPiece s1 = Some h) by exact Hd.
  unfold drop_next. rewrite Hd1.
  rewrite (dropPiece_on_block mu2 s1 h i2 b2 Hd1 Hi2 Hb2).
  eexists. split; [reflexivity |].
  cbn [ctrlCalls set_ctrlCalls]. unfold s1. cbn [ctrlCalls set_ctrlCalls].
  rewrite <- app_assoc. reflexivity.
Qed.

(** ** What gates a drag, and what does not *)

(** Neither the blocked flag nor the turn gates the drop.  When a piece is
    pressed while interaction is blocked or while it is not that side's
    turn, the mousedown starts no stream and lifts nothing, yet the mouseup
    over a square calls the move authority for that piece. *)
Theorem press_out_of_turn_still_submits (s : SVGChessBoard) (h : PieceCmpRef)
  (md : MouseEvent) (mu : DropEvent) (i : Z) (b : BlockCmpRef) :
  isDisabled s = true \/ color_of h s <> ChessEngine.turn (engine s) ->
  drop_index pointToIndex mu (onPieceDrag h s) = Ok i ->
  at_index (blocks s) i = Some b ->
  mousedrag_flatMap md (onPieceDrag h s) = Ok (onPieceDrag h s, stream_empty) /\
  drop_next pointToIndex mu (onPieceDrag h s)
  = Ok (set_ctrlCalls
          (ctrlCalls s ++
             [{| req_piece := SVGChessPiece.piece (pieceCmp s h);
                 req_block := SVGChessBlock.block (blockCmp s b) |}])
          (onPieceDrag h s)).
Proof.
  intros Hgate Hi Hb. split.
  - set (s1 := onPieceDrag h s).
    assert (Hd1 : dragPiece s1 = Some h) by reflexivity.
    unfold mousedrag_flatMap. rewrite Hd1.
    destruct Hgate as [Hdis | Hturn].
    + assert (Hdis1 : isDisabled s1 = true) by exact Hdis. now rewrite Hdis1.
    + assert (Hturn1 : color_of h s1 <> ChessEngine.turn (engine s1)) by exact Hturn.
      rewrite (@PieceColor_eqb_neq _ _ Hturn1). now destruct (isDisabled s1).
  - unfold drop_next. change (dragPiece (onPieceDrag h s)) with (Some h).
    apply (dropPiece_on_block mu (onPieceDrag h s) h i b eq_refl Hi Hb).
Qed.

(** A touch that starts on a square with no piece clears the drag reference
    before anything else is looked at.  A piece held until then is
    abandoned: no component is told, so it stays lifted where it is and
    the highlighting stays; the next drop is ignored and the next update
    of a stream that is still running throws. *)
Theorem touch_on_empty_square_abandons_drag (s : SVGChessBoard)
  (t0 : Touch) (more changed : list Touch) (rX rY : number) :
  isDisabled s = false ->
  ratioX s = Ok rX -> ratioY s = Ok rY ->
  filter_at s
    (pointToIndex
       (PrimFloat.mul (PrimFloat.sub (t_pageX t0)
                         (left (getBoundingClientRect (boardElRef s)))) rX)
       (PrimFloat.mul (PrimFloat.sub (t_pageY t0)
                         (top (getBoundingClientRect (boardElRef s)))) rY))
    (pieces s) = Ok [] ->
  touchdrag_flatMap pointToIndex
    {| touches := t0 :: more; changedTouches := changed |} s
  = Ok (set_dragPiece None s, stream_empty) /\
  pieceCmp (set_dragPiece None s) = pieceCmp s /\
  highlighted (set_dragPiece None s) = highlighted s /\
  (forall mu, drop_next pointToIndex mu (set_dragPiece None s)
              = Ok (set_dragPiece None s)) /\
  (forall pos, drag_next pos (set_dragPiece None s) = TypeError).
Proof.
  intros Hen HrX HrY Hf. split; [| now repeat split].
  unfold touchdrag_flatMap. rewrite Hen. cbn [touches].
  rewrite HrX, HrY. cbn [bind]. rewrite Hf. reflexivity.
Qed.

Lemma ratioX_throws (s : SVGChessBoard) :
  ratioX s = TypeError <->
  falsy (clientWidth (boardElRef s)) = true /\ parentNode (boardElRef s) = None.
Proof.
  unfold ratioX. destruct (falsy (clientWidth (boardElRef s))).
  - destruct (parentNode (boardElRef s)); simpl; split;
      [discriminate | intros [_ [=]] | now split | reflexivity].
  - split; [discriminate | intros [[=] _]].
Qed.

Lemma ratioY_throws (s : SVGChessBoard) :
  ratioY s = TypeError <->
  falsy (clientHeight (boardElRef s)) = true /\ parentNode (boardElRef s) = None.
Proof.
  unfold ratioY. destruct (falsy (clientHeight (boardElRef s))).
  - destruct (parentNode (boardElRef s)); simpl; split;
      [discriminate | intros [_ [=]] | now split | reflexivity].
  - split; [discriminate | intros [[=] _]].
Qed.

(** A mousedown makes a stream exactly when interaction is not blocked, a
    piece was pressed, it is that piece's turn and both viewport ratios
    can be read.  Then that piece, and no other component, is lifted and
    its legal destinations are highlighted; the drag reference and the
    pairing stay. *)
Theorem mouse_gesture_starts_exactly_when (md : MouseEvent) (s : SVGChessBoard) :
  ((exists s' c, mousedrag_flatMap md s = Ok (s', stream_moves c)) <->
   isDisabled s = false /\
   exists h, dragPiece s = Some h /\
     color_of h s = ChessEngine.turn (engine s) /\
     ratioX s <> TypeError /\ ratioY s <> TypeError) /\
  (forall s' c,
     mousedrag_flatMap md s = Ok (s', stream_moves c) ->
     exists h,
       dragPiece s' = Some h /\ dragPiece s = Some h /\
       SVGChessPiece.isDragged (pieceCmp s' h) = true /\
       highlighted s' = ChessEngine.moves (engine s) (SVGChessPiece.piece (pieceCmp s h)) /\
       (forall h', h' <> h -> pieceCmp s' h' = pieceCmp s h') /\
       same_pairing s s').
Proof.
  split.
  - unfold mousedrag_flatMap. split.
    + intros (s' & c & H).
      destruct (isDisabled s); [discriminate |]. split; [reflexivity |].
      destruct (dragPiece s) as [h |]; [| discriminate]. exists h.
      destruct (PieceColor_eqb (color_of h s) (ChessEngine.turn (engine s))) eqn:Hc;
        [| discriminate].
      apply PieceColor_eqb_eq in Hc. split; [reflexivity |]. split; [exact Hc |].
      destruct (ratioX s); [| discriminate].
      destruct (ratioY s); [| discriminate]. split; discriminate.
    + intros (Hen & h & Hd & Hc & HrX & HrY).
      rewrite Hen, Hd. apply PieceColor_eqb_eq in Hc. rewrite Hc.
      destruct (ratioX s) as [rX |]; [| contradiction].
      destruct (ratioY s) as [rY |]; [| contradiction].
      cbn [negb bind]. eexists. eexists. reflexivity.
  - intros s' c H.
    pose proof (mousedrag_flatMap_same_pairing md s s' (stream_moves c) H) as Hpair.
    destruct (@mousedrag_flatMap_moves md s s' c H)
      as (h & rX & rY & Hd & _ & _ & _ & ->).
    exists h. split; [exact Hd |]. split; [exact Hd |].
    split; [| split; [| split; [| exact Hpair]]].
    + unfold highlight.
      change (pieceCmp (set_highlighted
                (moves_of h (on_piece h SVGChessPiece.dragStart s))
                (on_piece h SVGChessPiece.dragStart s)) h)
        with (pieceCmp (on_piece h SVGChessPiece.dragStart s) h).
      rewrite pieceCmp_on_piece, Nat.eqb_refl. reflexivity.
    + change (highlighted (highlight
                (moves_of h (on_piece h SVGChessPiece.dragStart s))
                (on_piece h SVGChessPiece.dragStart s)))
        with (moves_of h (on_piece h SVGChessPiece.dragStart s)).
      unfold moves_of. rewrite pieceCmp_on_piece, Nat.eqb_refl. reflexivity.
    + intros h' Hne.
      change (pieceCmp (highlight
                (moves_of h (on_piece h SVGChessPiece.dragStart s))
                (on_piece h SVGChessPiece.dragStart s)) h')
        with (pieceCmp (on_piece h SVGChessPiece.dragStart s) h').
      rewrite pieceCmp_on_piece.
      destruct (Nat.eqb_spec h' h) as [Heq | _]; [contradiction | reflexivity].
Qed.

(** Where the mousedown callback and the mouseup subscriber throw.  The
    mousedown callback throws exactly when a drag would otherwise start and
    the board element has no parent and a width or a height that is 0 or
    NaN.  The index of a mouseup cannot be computed exactly when the element
    is so, and the mouseup subscriber throws exactly when, besides, a piece
    is referenced. *)
Theorem mousedown_and_mouseup_throw_exactly_when (md : MouseEvent) (e : MouseEvent)
  (s : SVGChessBoard) :
  (mousedrag_flatMap md s = TypeError <->
   isDisabled s = false /\
   (exists h, dragPiece s = Some h /\
              color_of h s = ChessEngine.turn (engine s)) /\
   parentNode (boardElRef s) = None /\
   (falsy (clientWidth (boardElRef s)) = true \/
    falsy (clientHeight (boardElRef s)) = true)) /\
  (drop_index pointToIndex (MouseUp e) s = TypeError <->
   parentNode (boardElRef s) = None /\
   (falsy (clientWidth (boardElRef s)) = true \/
    falsy (clientHeight (boardElRef s)) = true)) /\
  (drop_next pointToIndex (MouseUp e) s = TypeError <->
   (exists h, dragPiece s = Some h) /\
   parentNode (boardElRef s) = None /\
   (falsy (clientWidth (boardElRef s)) = true \/
    falsy (clientHeight (boardElRef s)) = true)).
Proof.
  assert (Hratio : forall A (k : number -> number -> result A),
            (forall x y, k x y <> TypeError) ->
            ((rX <- ratioX s ;; rY <- ratioY s ;; k rX rY) = TypeError <->
             parentNode (boardElRef s) = None /\
             (falsy (clientWidth (boardElRef s)) = true \/
              falsy (clientHeight (boardElRef s)) = true))).
  { intros A k Hk.
    pose proof (ratioX_throws s) as HX. pose proof (ratioY_throws s) as HY.
    destruct (ratioX s) as [rX |]; destruct (ratioY s) as [rY |]; cbn [bind].
    - split; [intro H; now apply Hk in H |].
      intros [Hp [Hw | Hh]].
      + assert (Hbad : @Ok number rX = TypeError) by (apply HX; now split).
        discriminate Hbad.
      + assert (Hbad : @Ok number rY = TypeError) by (apply HY; now split).
        discriminate Hbad.
    - split; [intros _ | reflexivity].
      destruct (proj1 HY eq_refl) as [Hh Hp]. split; [exact Hp | now right].
    - split; [intros _ | reflexivity].
      destruct (proj1 HX eq_refl) as [Hw Hp]. split; [exact Hp | now left].
    - split; [intros _ | reflexivity].
      destruct (proj1 HX eq_refl) as [Hw Hp]. split; [exact Hp | now left]. }
  assert (Hindex : drop_index pointToIndex (MouseUp e) s = TypeError <->
            parentNode (boardElRef s) = None /\
            (falsy (clientWidth (boardElRef s)) = true \/
             falsy (clientHeight (boardElRef s)) = true)).
  { unfold drop_index. cbn [drop_point bind fst snd].
    apply (Hratio _ (fun rX rY =>
             Ok (pointToIndex
                   (PrimFloat.mul (PrimFloat.sub (clientX e)
                      (left (getBoundingClientRect (boardElRef s)))) rX)
                   (PrimFloat.mul (PrimFloat.sub (clientY e)
                      (top (getBoundingClientRect (boardElRef s)))) rY)))).
    discriminate. }
  split; [| split; [exact Hindex |]].
  - unfold mousedrag_flatMap.
    destruct (isDisabled s).
    { split; [discriminate | intros [[=] _]]. }
    destruct (dragPiece s) as [h |].
    2: { split; [discriminate | intros (_ & (h & [=] & _) & _)]. }
    destruct (PieceColor_eqb (color_of h s) (ChessEngine.turn (engine s))) eqn:Hc;
      cbn [negb].
    + apply PieceColor_eqb_eq in Hc.
      rewrite (Hratio _ (fun rX rY =>
                 Ok (highlight (moves_of h (on_piece h SVGChessPiece.dragStart s))
                       (on_piece h SVGChessPiece.dragStart s),
                     stream_moves {| lastX := pageX md; lastY := pageY md;
                                     viewPortRatioX := rX; viewPortRatioY := rY |})));
        [| discriminate].
      split.
      * intros [Hp Hsz]. split; [reflexivity |]. split; [| now split].
        exists h. now split.
      * intros (_ & _ & Hp & Hsz). now split.
    + split; [discriminate |].
      intros (_ & (h' & [= <-] & Hturn) & _).
      apply PieceColor_eqb_eq in Hturn. congruence.
  - unfold drop_next, dropPiece.
    destruct (dragPiece s) as [h |] eqn:Hd.
    2: { split; [discriminate | intros ((h & [=]) & _)]. }
    destruct (drop_index pointToIndex (MouseUp e) s) as [i |] eqn:Hi; cbn [bind].
    + assert (Hok : forall r : result SVGChessBoard,
                (exists s', r = Ok s') ->
                (r = TypeError <->
                 (exists h0, Some h = Some h0) /\
                 parentNode (boardElRef s) = None /\
                 (falsy (clientWidth (boardElRef s)) = true \/
                  falsy (clientHeight (boardElRef s)) = true))).
      { intros r [s' ->]. split; [discriminate |].
        intros [_ Hcond]. apply (proj2 Hindex) in Hcond. discriminate Hcond. }
      destruct (at_index (blocks s) i) as [b |].
      * apply Hok. cbn [defined bind]. now eexists.
      * apply Hok. unfold endDragAndDrop. rewrite Hd. cbn [defined bind].
        now eexists.
    + split; [intros _ | reflexivity].
      split; [now exists h | now apply (proj1 Hindex)].
Qed.

(** ** The sweep, where the view is not well formed *)

Lemma sync_block_leaves_unfound (ps : list PieceCmpRef) (s : SVGChessBoard)
  (b : BlockCmpRef) (h : PieceCmpRef) :
  find (occupies s b) ps <> Some h ->
  pieceCmp (sync_block ps s b) h = pieceCmp s h.
Proof.
  intro Hnot. unfold sync_block.
  destruct (find (occupies s b) ps) as [h' |]; [| reflexivity].
  assert (Hne : h <> h') by congruence.
  rewrite pieceCmp_on_piece.
  destruct (Nat.eqb_spec h h') as [Heq | _]; [contradiction |].
  rewrite pieceCmp_set_block.
  destruct (Nat.eqb_spec h h') as [Heq | _]; [contradiction | reflexivity].
Qed.

Lemma sweep_leaves_unfound (s0 : SVGChessBoard) (h : PieceCmpRef)
  (bs : list BlockCmpRef) :
  (forall b, In b bs -> find (occupies s0 b) (pieces s0) <> Some h) ->
  forall s, same_model s0 s ->
    pieceCmp (fold_left (sync_block (pieces s0)) bs s) h = pieceCmp s h.
Proof.
  induction bs as [| b bs IH]; intros Hnot s Hsm; [reflexivity |].
  simpl. rewrite IH.
  - apply sync_block_leaves_unfound.
    rewrite (find_occupies_same_model s0 s b (pieces s0) Hsm).
    apply Hnot. now left.
  - intros b' Hin. apply Hnot. now right.
  - eapply same_model_trans; [exact Hsm | apply same_model_sync_block].
Qed.

Lemma sweep_pairs_found (s0 : SVGChessBoard) (h : PieceCmpRef) (b : BlockCmpRef)
  (bs : list BlockCmpRef) :
  squares_rendered_once s0 ->
  In b (blocks s0) -> find (occupies s0 b) (pieces s0) = Some h ->
  (forall b', In b' bs -> In b' (blocks s0)) ->
  forall s, same_model s0 s ->
    paired s h b \/ In b bs ->
    paired (fold_left (sync_block (pieces s0)) bs s) h b.
Proof.
  intros Honce Hb Hfind.
  pose proof (find_some _ _ Hfind) as [_ Hocc].
  induction bs as [| b' bs IH]; intros Hsub s Hsm Hcase.
  - destruct Hcase as [Hp | []]. exact Hp.
  - simpl. apply IH.
    + intros b'' Hin. apply Hsub. now right.
    + eapply same_model_trans; [exact Hsm | apply same_model_sync_block].
    + destruct (Nat.eq_dec b' b) as [-> | Hne].
      * left. unfold sync_block.
        rewrite (find_occupies_same_model s0 s b (pieces s0) Hsm), Hfind.
        split; [apply pieceCmp_paired | apply blockCmp_paired].
      * destruct Hcase as [[Hp Hq] | [Heq | Hin]];
          [| contradiction | now right].
        left. unfold sync_block.
        rewrite (find_occupies_same_model s0 s b' (pieces s0) Hsm).
        destruct (find (occupies s0 b') (pieces s0)) as [h' |] eqn:Hfind'.
        -- assert (Hne' : h <> h').
           { intros <-. apply find_some in Hfind' as [_ Hocc'].
             apply Hne. apply (occupies_one_block s0 Honce h b b'); auto.
             apply Hsub. now left. }
           split.
           ++ rewrite pieceCmp_on_piece.
              destruct (Nat.eqb_spec h h') as [Heq | _]; [contradiction |].
              rewrite pieceCmp_set_block.
              destruct (Nat.eqb_spec h h') as [Heq | _]; [contradiction | exact Hp].
           ++ change (blockCmp (on_piece h' (SVGChessPiece.reset 150)
                                  (set_block h' (Some b') s)) b)
                with (blockCmp (set_block h' (Some b') s) b).
              rewrite blockCmp_set_block.
              destruct (Nat.eqb_spec b b') as [Heq | _]; [congruence | exact Hq].
        -- split; [exact Hp |].
           rewrite blockCmp_on_block.
           destruct (Nat.eqb_spec b b') as [Heq | _]; [congruence | exact Hq].
Qed.

(** The sweep leaves a piece component exactly as it was (its square
    component, its offset, lifted or not) when the square of its piece is
    not among the rendered squares, or when its piece has no square. *)
Theorem sweep_leaves_piece_without_rendered_square (s : SVGChessBoard)
  (h : PieceCmpRef) :
  (forall b, In b (blocks s) -> occupies s b h = false) ->
  pieceCmp (syncPiecesToBlocks s) h = pieceCmp s h.
Proof.
  intro Hfree. unfold syncPiecesToBlocks.
  apply sweep_leaves_unfound; [| apply same_model_refl].
  intros b Hb Hfind. apply find_some in Hfind as [_ Hocc].
  rewrite (Hfree b Hb) in Hocc. discriminate.
Qed.

(** Where two rendered piece components stand on the same square, the
    sweep stops at the first of the query list: that one and the square
    component end up paired, and the other is left exactly as it was, still
    naming whatever square component it named before. *)
Theorem sweep_pairs_only_the_first_on_a_square (s : SVGChessBoard)
  (b : BlockCmpRef) (h1 h2 : PieceCmpRef) :
  squares_rendered_once s ->
  In b (blocks s) ->
  find (occupies s b) (pieces s) = Some h1 ->
  occupies s b h2 = true -> h2 <> h1 ->
  paired (syncPiecesToBlocks s) h1 b /\
  pieceCmp (syncPiecesToBlocks s) h2 = pieceCmp s h2.
Proof.
  intros Honce Hb Hfind Hocc2 Hne. unfold syncPiecesToBlocks. split.
  - apply (sweep_pairs_found s h1 b (blocks s) Honce Hb Hfind); auto.
    apply same_model_refl.
  - apply sweep_leaves_unfound; [| apply same_model_refl].
    intros b' Hb' Hfind'. pose proof (find_some _ _ Hfind') as [_ Hocc'].
    assert (Heq : b' = b) by (apply (occupies_one_block s Honce h2 b b'); auto).
    subst b'. congruence.
Qed.

(** ** A move that was put off *)

(** While the component of a piece of the engine is missing, the move that
    was put off never gives up: however often its timer fires, it is
    pending again and the board is as before.  Once the piece has left the
    engine's collection the firing timer is dropped, nothing more is
    scheduled, and [move] itself does nothing. *)
Theorem deferred_move_retries_until_piece_leaves (s : SVGChessBoard) (p : PieceRef) :
  find_pieceCmp p s = None ->
  (In p (ChessEngine.pieces (engine s)) -> timers s = [p] ->
   forall n, run_timers n s = Ok s) /\
  (~ In p (ChessEngine.pieces (engine s)) ->
   move p s = Ok s /\
   forall rest, timers s = p :: rest -> run_timer s = Ok (set_timers rest s)).
Proof.
  intro Hf. split.
  - intros Hin Ht.
    assert (Hstep : run_timer s = Ok s).
    { unfold run_timer. rewrite Ht.
      rewrite (@move_not_rendered p (set_timers [] s) Hf Hin).
      f_equal. destruct s. simpl in Ht. subst. reflexivity. }
    induction n as [| n IH]; [reflexivity |].
    simpl. rewrite Hstep. exact IH.
  - intro Hnot.
    assert (Hout : existsb (Nat.eqb p) (ChessEngine.pieces (engine s)) = false).
    { destruct (existsb (Nat.eqb p) (ChessEngine.pieces (engine s))) eqn:He;
        [| reflexivity].
      apply existsb_exists in He as (q & Hq & Heq).
      apply Nat.eqb_eq in Heq. subst q. contradiction. }
    split.
    + unfold move. now rewrite Hf, Hout.
    + intros rest Ht. unfold run_timer, move. rewrite Ht.
      change (find_pieceCmp p (set_timers rest s)) with (find_pieceCmp p s).
      change (engine (set_timers rest s)) with (engine s).
      now rewrite Hf, Hout.
Qed.

(** ** Updates and drops, mouse and touch *)

(** While a piece is held, updates never fail and reach that piece only:
    the drag reference, the highlighting, the pairing, whether the piece is
    lifted and every other component stay as they are.  With no piece held
    the first update throws. *)
Theorem updates_reach_only_the_held_piece (ps : list Pos) (s : SVGChessBoard) :
  (forall h, dragPiece s = Some h ->
   exists s',
     drag_all ps s = Ok s' /\
     dragPiece s' = Some h /\ highlighted s' = highlighted s /\
     same_pairing s s' /\
     SVGChessPiece.isDragged (pieceCmp s' h) = SVGChessPiece.isDragged (pieceCmp s h) /\
     forall h', h' <> h -> pieceCmp s' h' = pieceCmp s h') /\
  (dragPiece s = None -> ps <> [] -> drag_all ps s = TypeError).
Proof.
  split.
  - revert s. induction ps as [| pos ps IH]; intros s h Hd.
    + exists s. split; [reflexivity |]. split; [exact Hd |].
      split; [reflexivity |]. split; [apply same_pairing_refl |]. now split.
    + simpl. unfold drag_next. rewrite Hd. cbn [bind defined].
      set (s1 := on_piece h (SVGChessPiece.setCoordinates (pos_x pos) (pos_y pos)) s).
      destruct (IH s1 h Hd) as (s' & Hrun & Hd' & Hh' & Hpair & Hl & Hothers).
      exists s'. split; [exact Hrun |]. split; [exact Hd' |].
      split; [exact Hh' |]. split; [| split].
      * apply same_pairing_trans with (s2 := s1); [| exact Hpair].
        apply same_pairing_on_piece. now split.
      * rewrite Hl. unfold s1. rewrite pieceCmp_on_piece, Nat.eqb_refl. reflexivity.
      * intros h' Hne. rewrite (Hothers h' Hne). unfold s1.
        rewrite pieceCmp_on_piece.
        destruct (Nat.eqb_spec h' h) as [Heq | _]; [contradiction | reflexivity].
  - intros Hd Hne. destruct ps as [| pos ps]; [contradiction |].
    simpl. unfold drag_next. now rewrite Hd.
Qed.

(** A touchend is resolved like a mouseup at the client point of its
    first changed touch, whatever its other touches are; a touchend with
    no changed touch throws. *)
Theorem touch_drop_resolves_like_mouse_drop (s : SVGChessBoard)
  (ts more : list Touch) (t : Touch) (e : MouseEvent) :
  clientX e = t_clientX t -> clientY e = t_clientY t ->
  dropPiece pointToIndex (TouchEnd {| touches := ts; changedTouches := t :: more |}) s
  = dropPiece pointToIndex (MouseUp e) s /\
  drop_next pointToIndex (TouchEnd {| touches := ts; changedTouches := t :: more |}) s
  = drop_next pointToIndex (MouseUp e) s /\
  dropPiece pointToIndex (TouchEnd {| touches := ts; changedTouches := [] |}) s
  = TypeError.
Proof.
  intros Hx Hy.
  assert (Hidx : drop_index pointToIndex
                   (TouchEnd {| touches := ts; changedTouches := t :: more |}) s
                 = drop_index pointToIndex (MouseUp e) s).
  { unfold drop_index. cbn [drop_point changedTouches hd_error defined bind fst snd].
    now rewrite Hx, Hy. }
  assert (Hdrop : dropPiece pointToIndex
                    (TouchEnd {| touches := ts; changedTouches := t :: more |}) s
                  = dropPiece pointToIndex (MouseUp e) s).
  { unfold dropPiece. now rewrite Hidx. }
  split; [exact Hdrop |]. split; [| reflexivity].
  unfold drop_next. now rewrite Hdrop.
Qed.

End Properties.

(** * The properties on the small board *)

Lemma newGame_cancels_previous_listeners_witness :
  rxWaste rank_started = fresh_subs 0 /\
  fst (newGame rank_started) = newGame_register (clearSubscriptions rank_started) /\
  rxWaste (clearSubscriptions rank_started) = [] /\
  listeners (clearSubscriptions rank_started) = [] /\
  (forall sub, In sub (rxWaste rank_started) ->
     ~ In sub (listeners (fst (newGame rank_started))) /\
     ~ In sub (rxWaste (fst (newGame rank_started)))) /\
  (forall l, In l (listeners rank_started) ->
     ~ In l (listeners (fst (newGame rank_started)))).
Proof.
  assert (Hn : nextSub rank_started = 6) by (vm_compute; reflexivity).
  assert (Hw : rxWaste rank_started = fresh_subs 0) by (vm_compute; reflexivity).
  assert (Hl : listeners rank_started = fresh_subs 0) by (vm_compute; reflexivity).
  split; [exact Hw |].
  apply newGame_cancels_previous_listeners.
  - unfold listeners_owned. rewrite Hw, Hl.
    intros l Hin. exists l. split; [exact Hin | reflexivity].
  - unfold subs_allocated. rewrite Hn, Hw, Hl.
    split; intros sub Hin; apply fresh_subs_ids in Hin; lia.
Defined.

(** C3, as stated, fails.  While the king is held, a touch that starts on
    the rook's square is not ignored: the rook is now the drag reference,
    the highlighted squares are the rook's destinations, a stream of
    updates has started, and two pieces are lifted at once. *)
Lemma touch_start_replaces_active_session :
  isDisabled rank_king_lifted = false /\
  dragPiece rank_king_lifted = Some 0 /\
  highlighted rank_king_lifted = rank_moves 0 /\
  lifted rank_king_lifted = [0] /\
  exists s' c,
    touchdrag_flatMap rank_pointToIndex (touches_at 280%float 30%float) rank_king_lifted
      = Ok (s', stream_moves c) /\
    dragPiece s' = Some 1 /\
    highlighted s' = rank_moves 1 /\
    lifted s' = [0; 1] /\
    dragPiece s' <> dragPiece rank_king_lifted /\
    map Block.index (highlighted s') <> map Block.index (highlighted rank_king_lifted).
Proof.
  split; [vm_compute; reflexivity |].
  split; [vm_compute; reflexivity |].
  split; [vm_compute; reflexivity |].
  split; [vm_compute; reflexivity |].
  exists rank_rook_touched,
    {| t_rect := {| left := 10%float; top := 20%float |};
       t_lastX := 270%float; t_lastY := 10%float;
       t_viewPortRatioX := 2%float; t_viewPortRatioY := 2%float |}.
  split; [vm_compute; reflexivity |].
  split; [vm_compute; reflexivity |].
  split; [vm_compute; reflexivity |].
  split; [vm_compute; reflexivity |].
  split; vm_compute; discriminate.
Qed.

Lemma start_is_noop_only_while_blocked_witness :
  (isDisabled rank_blocked = true /\
   mousedrag_flatMap (mouse_at 200%float 30%float) rank_blocked
     = Ok (rank_blocked, stream_empty) /\
   touchdrag_flatMap rank_pointToIndex (touches_at 280%float 30%float) rank_blocked
     = Ok (rank_blocked, stream_empty)) /\
  (isDisabled rank_king_lifted = false /\
   dragPiece rank_rook_touched = Some 1 /\
   same_pairing rank_king_lifted rank_rook_touched /\
   SVGChessPiece.isDragged (pieceCmp rank_rook_touched 0) = true).
Proof.
  split.
  - split; [reflexivity |].
    apply (proj1 (start_is_noop_only_while_blocked rank_pointToIndex rank_blocked)).
    reflexivity.
  - assert (Hen : isDisabled rank_king_lifted = false) by (vm_compute; reflexivity).
    split; [exact Hen |].
    destruct (proj2 (proj2 (start_is_noop_only_while_blocked rank_pointToIndex
                              rank_king_lifted))
                Hen (touch_at 280%float 30%float) [] [touch_at 280%float 30%float]
                rank_rook_touched
                (stream_moves
                   {| t_rect := {| left := 10%float; top := 20%float |};
                      t_lastX := 270%float; t_lastY := 10%float;
                      t_viewPortRatioX := 2%float; t_viewPortRatioY := 2%float |}))
      as (rX & rY & found & _ & _ & _ & _ & Hpair & Hlift & _).
    + vm_compute. reflexivity.
    + split; [vm_compute; reflexivity |]. split; [exact Hpair |].
      apply Hlift. vm_compute. reflexivity.
Defined.

(** The board of the examples renders each square once. *)
Lemma rank_squares_rendered_once (s : SVGChessBoard) :
  blockCmp s = rank_blockCmp -> squares_rendered_once s.
Proof.
  intros Hbc b1 b2 _ _. rewrite Hbc. unfold rank_blockCmp, Block.same. simpl.
  apply Nat.eqb_eq.
Qed.

Lemma rank_king_lifted_by_mousedown :
  mousedrag_flatMap (mouse_at 200%float 30%float) rank_king_pressed
  = Ok (rank_king_lifted,
        stream_moves {| lastX := 200%float; lastY := 30%float;
                        viewPortRatioX := 2%float; viewPortRatioY := 2%float |}).
Proof. vm_compute. reflexivity. Qed.

Lemma rank_king_dragged_by_update :
  drag_next {| pos_x := 20%float; pos_y := 10%float |} rank_king_lifted
  = Ok rank_king_dragged.
Proof. vm_compute. reflexivity. Qed.

Lemma rank_king_drag :
  drag_steps rank_pointToIndex rank_board rank_king_dragged.
Proof.
  apply drag_steps_cons with (s' := rank_king_pressed); [apply step_pieceDrag |].
  eapply drag_steps_cons.
  - eapply step_mousedown. exact rank_king_lifted_by_mousedown.
  - eapply drag_steps_cons; [| apply drag_steps_refl].
    eapply step_next. exact rank_king_dragged_by_update.
Qed.


Lemma invalid_drop_rolls_back_witness :
  dragPiece rank_king_dragged = Some 0 /\
  SVGChessPiece.block (pieceCmp rank_board 0) = Some 4 /\
  exists s1 s2,
    dropPiece rank_pointToIndex (MouseUp (mouse_at 50%float 30%float)) rank_king_dragged
      = Ok s1 /\
    ctrlCalls s1 = ctrlCalls rank_king_dragged ++
      [{| req_piece := SVGChessPiece.piece (pieceCmp rank_king_dragged 0);
          req_block := SVGChessBlock.block (blockCmp rank_king_dragged 1) |}] /\
    dropPiece_then {| ChessMove.invalid := true; ChessMove.isCastlingMove := false |} s1
      = Ok s2 /\
    SVGChessPiece.block (pieceCmp s2 0) = SVGChessPiece.block (pieceCmp rank_board 0) /\
    (forall h', SVGChessPiece.block (pieceCmp s2 h')
                = SVGChessPiece.block (pieceCmp rank_board h')) /\
    blockCmp s2 = blockCmp rank_board /\ engine s2 = engine rank_board /\
    SVGChessPiece.isDragged (pieceCmp s2 0) = false /\
    dragPiece s2 = None /\ highlighted s2 = [].
Proof.
  assert (Hd : dragPiece rank_king_dragged = Some 0) by (vm_compute; reflexivity).
  split; [exact Hd |]. split; [vm_compute; reflexivity |].
  apply (@invalid_drop_rolls_back rank_pointToIndex rank_board rank_king_dragged
           (MouseUp (mouse_at 50%float 30%float)) 0 1%Z 1
           {| ChessMove.invalid := true; ChessMove.isCastlingMove := false |}).
  - exact rank_king_drag.
  - exact Hd.
  - vm_compute. reflexivity.
  - vm_compute. reflexivity.
  - reflexivity.
Defined.

Lemma drop_outside_board_reverts_witness :
  at_rest (pieceCmp rank_board 0) /\
  SVGChessPiece.x (pieceCmp rank_king_dragged 0) = 20%float /\
  drop_index rank_pointToIndex (MouseUp (mouse_at 240%float 300%float)) rank_king_dragged
    = Ok (-1)%Z /\
  exists s1,
    dropPiece rank_pointToIndex (MouseUp (mouse_at 240%float 300%float)) rank_king_dragged
      = Ok s1 /\
    ctrlCalls s1 = ctrlCalls rank_king_dragged /\
    ctrlCalls s1 = ctrlCalls rank_board /\
    dragPiece s1 = None /\ highlighted s1 = [] /\
    SVGChessPiece.block (pieceCmp s1 0) = SVGChessPiece.block (pieceCmp rank_board 0) /\
    at_rest (pieceCmp s1 0) /\
    (at_rest (pieceCmp rank_board 0) -> pieceCmp s1 0 = pieceCmp rank_board 0).
Proof.
  assert (Hi : drop_index rank_pointToIndex (MouseUp (mouse_at 240%float 300%float))
                 rank_king_dragged = Ok (-1)%Z) by (vm_compute; reflexivity).
  split; [vm_compute; repeat split |]. split; [vm_compute; reflexivity |].
  split; [exact Hi |].
  apply (@drop_outside_board_reverts rank_pointToIndex rank_board rank_king_dragged
           (MouseUp (mouse_at 240%float 300%float)) 0 (-1)%Z).
  - exact rank_king_drag.
  - vm_compute. reflexivity.
  - exact Hi.
  - reflexivity.
Defined.

Lemma rank_castled_pieces_apart : one_piece_per_square rank_castled_pending.
Proof.
  intros h1 h2 sq1 sq2 H1 H2 Hs1 Hs2 Hsame.
  vm_compute in H1, H2.
  destruct H1 as [<- | [<- | [<- | []]]]; destruct H2 as [<- | [<- | [<- | []]]];
    try reflexivity;
    vm_compute in Hs1, Hs2; injection Hs1 as <-; injection Hs2 as <-;
    vm_compute in Hsame; discriminate.
Qed.

Lemma rank_castled_pieces_rendered : squares_of_pieces_rendered rank_castled_pending.
Proof.
  intros h sq Hin Hsq. vm_compute in Hin.
  destruct Hin as [<- | [<- | [<- | []]]]; vm_compute in Hsq; injection Hsq as <-;
    [exists 6 | exists 5 | exists 0]; split; vm_compute; auto 10.
Qed.

Lemma castling_runs_full_sweep_witness :
  SVGChessPiece.block (pieceCmp rank_castled_pending 1) = Some 7 /\
  square_of rank_castled_pending 1 = Some (rank_square 5) /\
  exists s',
    dropPiece_then {| ChessMove.invalid := false; ChessMove.isCastlingMove := true |}
      rank_castled_pending = Ok s' /\
    endDragAndDrop (syncPiecesToBlocks rank_castled_pending) = Ok s' /\
    (forall h sq, In h (pieces rank_castled_pending) ->
       square_of rank_castled_pending h = Some sq ->
       exists b, In b (blocks rank_castled_pending) /\
         Block.same (SVGChessBlock.block (blockCmp rank_castled_pending b)) sq = true /\
         paired s' h b) /\
    (forall b, In b (blocks rank_castled_pending) ->
       (forall h, In h (pieces rank_castled_pending) ->
          occupies rank_castled_pending b h = false) ->
       SVGChessBlock.piece (blockCmp s' b) = None).
Proof.
  split; [vm_compute; reflexivity |]. split; [vm_compute; reflexivity |].
  apply (@castling_runs_full_sweep rank_castled_pending
           {| ChessMove.invalid := false; ChessMove.isCastlingMove := true |} 0).
  - reflexivity.
  - reflexivity.
  - vm_compute. reflexivity.
  - apply rank_squares_rendered_once. vm_compute. reflexivity.
  - exact rank_castled_pieces_apart.
  - exact rank_castled_pieces_rendered.
Defined.

Lemma wrong_turn_start_is_empty_witness :
  (dragPiece rank_black_pressed = Some 2 /\
   color_of 2 rank_black_pressed = BLACK /\
   ChessEngine.turn (engine rank_black_pressed) = WHITE /\
   mousedrag_flatMap (mouse_at 20%float 30%float) rank_black_pressed
     = Ok (rank_black_pressed, stream_empty)) /\
  (dragPiece rank_black_touched = Some 2 /\
   pieceCmp rank_black_touched = pieceCmp rank_board /\
   highlighted rank_black_touched = highlighted rank_board).
Proof.
  assert (Hd : dragPiece rank_black_pressed = Some 2) by (vm_compute; reflexivity).
  assert (Hc : color_of 2 rank_black_pressed = BLACK) by (vm_compute; reflexivity).
  assert (Ht : ChessEngine.turn (engine rank_black_pressed) = WHITE)
    by (vm_compute; reflexivity).
  assert (Hd' : dragPiece rank_black_touched = Some 2) by (vm_compute; reflexivity).
  assert (Hc' : color_of 2 rank_black_touched = BLACK) by (vm_compute; reflexivity).
  assert (Ht' : ChessEngine.turn (engine rank_black_touched) = WHITE)
    by (vm_compute; reflexivity).
  split.
  - split; [exact Hd |]. split; [exact Hc |]. split; [exact Ht |].
    apply (proj1 (wrong_turn_start_is_empty rank_pointToIndex rank_black_pressed)
             (mouse_at 20%float 30%float) 2 Hd).
    rewrite Hc, Ht. discriminate.
  - split; [exact Hd' |].
    apply (proj2 (wrong_turn_start_is_empty rank_pointToIndex rank_board)
             (touches_at 20%float 30%float) rank_black_touched stream_empty 2).
    + vm_compute. reflexivity.
    + exact Hd'.
    + rewrite Hc', Ht'. discriminate.
Defined.

Lemma position_updates_are_scaled_deltas_witness :
  ratioX rank_king_pressed = Ok 2%float /\
  emissions mouse_emissions
    (stream_moves {| lastX := 200%float; lastY := 30%float;
                     viewPortRatioX := 2%float; viewPortRatioY := 2%float |})
    two_mouse_moves
  = [ {| pos_x := 20%float; pos_y := 10%float |};
      {| pos_x := 40%float; pos_y := 10%float |} ] /\
  exists rX rY,
    ratioX rank_king_pressed = Ok rX /\ ratioY rank_king_pressed = Ok rY /\
    forall evs,
      emissions mouse_emissions
        (stream_moves {| lastX := 200%float; lastY := 30%float;
                         viewPortRatioX := 2%float; viewPortRatioY := 2%float |}) evs
      = delta_updates {| pos_x := rX; pos_y := rY |}
          {| pos_x := pageX (mouse_at 200%float 30%float);
             pos_y := pageY (mouse_at 200%float 30%float) |} (map mouse_sample evs).
Proof.
  split; [vm_compute; reflexivity |]. split; [vm_compute; reflexivity |].
  apply (proj1 (position_updates_are_scaled_deltas rank_pointToIndex rank_king_pressed)
           (mouse_at 200%float 30%float) rank_king_lifted).
  exact rank_king_lifted_by_mousedown.
Defined.

Lemma move_defers_until_rendered_witness :
  find_pieceCmp 3 rank_promoted = None /\
  move 3 rank_promoted = Ok (set_timers (timers rank_promoted ++ [3]) rank_promoted) /\
  find_pieceCmp 3 rank_promoted_rendered = Some 3 /\
  exists s'',
    run_timer rank_promoted_rendered = Ok s'' /\ timers s'' = [] /\ paired s'' 3 2.
Proof.
  assert (Hf : find_pieceCmp 3 rank_promoted = None) by (vm_compute; reflexivity).
  assert (Hin : In 3 (ChessEngine.pieces (engine rank_promoted)))
    by (vm_compute; auto 10).
  assert (Hf' : find_pieceCmp 3 rank_promoted_rendered = Some 3)
    by (vm_compute; reflexivity).
  destruct (@move_defers_until_rendered rank_promoted 3 Hf Hin) as (Hmove & Hlater & _).
  split; [exact Hf |]. split; [exact Hmove |]. split; [exact Hf' |].
  apply (Hlater rank_promoted_rendered [] 3 (rank_square 2) 2).
  - vm_compute. reflexivity.
  - exact Hf'.
  - vm_compute. reflexivity.
  - vm_compute. reflexivity.
Defined.

(** * The further properties on the small board *)

Lemma subscriptions_never_accumulate_witness :
  rxWaste rank_board = [] /\ listeners rank_board = [] /\
  rxWaste (lifecycle_run three_games rank_board) = fresh_subs 12 /\
  listeners (lifecycle_run three_games rank_board)
    = rxWaste (lifecycle_run three_games rank_board) /\
  (rxWaste (lifecycle_run three_games rank_board) = [] \/
   exists n, rxWaste (lifecycle_run three_games rank_board) = fresh_subs n) /\
  List.length (listeners (lifecycle_run three_games rank_board)) <= 6.
Proof.
  split; [reflexivity |]. split; [reflexivity |].
  split; [vm_compute; reflexivity |].
  apply (subscriptions_never_accumulate three_games rank_board); reflexivity.
Defined.

Lemma rank_king_returned_by_callback :
  dropPiece_then {| ChessMove.invalid := true; ChessMove.isCastlingMove := false |}
    rank_king_dragged = Ok rank_king_returned.
Proof. vm_compute. reflexivity. Qed.

Lemma drop_callback_runs_once_witness :
  dragPiece rank_king_dragged = Some 0 /\
  dragPiece rank_king_returned = None /\ highlighted rank_king_returned = [] /\
  (forall mv', dropPiece_then mv' rank_king_returned = TypeError) /\
  endDragAndDrop rank_king_returned = TypeError.
Proof.
  split; [vm_compute; reflexivity |].
  apply (drop_callback_runs_once
           {| ChessMove.invalid := true; ChessMove.isCastlingMove := false |}
           rank_king_dragged rank_king_returned).
  exact rank_king_returned_by_callback.
Defined.

Lemma drop_keeps_drag_until_answer_witness :
  dragPiece rank_king_dragged = Some 0 /\
  exists s1,
    drop_next rank_pointToIndex (MouseUp (mouse_at 240%float 30%float)) rank_king_dragged
      = Ok s1 /\
    dragPiece s1 = Some 0 /\ highlighted s1 = highlighted rank_king_dragged /\
    pieceCmp s1 = pieceCmp rank_king_dragged /\
    blockCmp s1 = blockCmp rank_king_dragged /\
    forall mu2 i2 b2,
      drop_index rank_pointToIndex mu2 s1 = Ok i2 ->
      at_index (blocks s1) i2 = Some b2 ->
      exists s2,
        drop_next rank_pointToIndex mu2 s1 = Ok s2 /\
        ctrlCalls s2 = ctrlCalls rank_king_dragged ++
          [ {| req_piece := SVGChessPiece.piece (pieceCmp rank_king_dragged 0);
               req_block := SVGChessBlock.block (blockCmp rank_king_dragged 6) |};
            {| req_piece := SVGChessPiece.piece (pieceCmp rank_king_dragged 0);
               req_block := SVGChessBlock.block (blockCmp rank_king_dragged b2) |} ].
Proof.
  assert (Hd : dragPiece rank_king_dragged = Some 0) by (vm_compute; reflexivity).
  split; [exact Hd |].
  apply (drop_keeps_drag_until_answer rank_pointToIndex rank_king_dragged
           (MouseUp (mouse_at 240%float 30%float)) 0 6%Z 6).
  - exact Hd.
  - vm_compute. reflexivity.
  - vm_compute. reflexivity.
Defined.

Lemma press_out_of_turn_still_submits_witness :
  color_of 2 rank_board = BLACK /\
  ChessEngine.turn (engine rank_board) = WHITE /\
  mousedrag_flatMap (mouse_at 20%float 30%float) (onPieceDrag 2 rank_board)
    = Ok (onPieceDrag 2 rank_board, stream_empty) /\
  drop_next rank_pointToIndex (MouseUp (mouse_at 50%float 30%float))
    (onPieceDrag 2 rank_board)
  = Ok (set_ctrlCalls
          (ctrlCalls rank_board ++
             [{| req_piece := SVGChessPiece.piece (pieceCmp rank_board 2);
                 req_block := SVGChessBlock.block (blockCmp rank_board 1) |}])
          (onPieceDrag 2 rank_board)).
Proof.
  assert (Hc : color_of 2 rank_board = BLACK) by (vm_compute; reflexivity).
  assert (Ht : ChessEngine.turn (engine rank_board) = WHITE) by reflexivity.
  split; [exact Hc |]. split; [exact Ht |].
  apply (press_out_of_turn_still_submits rank_pointToIndex rank_board 2
           (mouse_at 20%float 30%float) (MouseUp (mouse_at 50%float 30%float)) 1%Z 1).
  - right. rewrite Hc, Ht. discriminate.
  - vm_compute. reflexivity.
  - vm_compute. reflexivity.
Defined.

Lemma touch_on_empty_square_abandons_drag_witness :
  dragPiece rank_king_lifted = Some 0 /\
  SVGChessPiece.isDragged (pieceCmp rank_king_lifted 0) = true /\
  touchdrag_flatMap rank_pointToIndex
    {| touches := [touch_at 100%float 30%float]; changedTouches := [] |}
    rank_king_lifted
  = Ok (set_dragPiece None rank_king_lifted, stream_empty) /\
  pieceCmp (set_dragPiece None rank_king_lifted) = pieceCmp rank_king_lifted /\
  highlighted (set_dragPiece None rank_king_lifted) = highlighted rank_king_lifted /\
  (forall mu, drop_next rank_pointToIndex mu (set_dragPiece None rank_king_lifted)
              = Ok (set_dragPiece None rank_king_lifted)) /\
  (forall pos, drag_next pos (set_dragPiece None rank_king_lifted) = TypeError).
Proof.
  split; [vm_compute; reflexivity |]. split; [vm_compute; reflexivity |].
  apply (touch_on_empty_square_abandons_drag rank_pointToIndex rank_king_lifted
           (touch_at 100%float 30%float) [] [] 2%float 2%float).
  - vm_compute. reflexivity.
  - vm_compute. reflexivity.
  - vm_compute. reflexivity.
  - vm_compute. reflexivity.
Defined.

Lemma sweep_leaves_piece_without_rendered_square_witness :
  square_of rank_captured 2 = None /\
  pieceCmp (syncPiecesToBlocks rank_captured) 2 = pieceCmp rank_captured 2 /\
  SVGChessPiece.block (pieceCmp rank_captured 2) = Some 0.
Proof.
  split; [vm_compute; reflexivity |]. split; [| vm_compute; reflexivity].
  apply (sweep_leaves_piece_without_rendered_square rank_captured 2).
  intros b _. reflexivity.
Defined.

Lemma sweep_pairs_only_the_first_on_a_square_witness :
  square_of rank_taking 1 = Some (rank_square 0) /\
  square_of rank_taking 2 = Some (rank_square 0) /\
  paired (syncPiecesToBlocks rank_taking) 1 0 /\
  pieceCmp (syncPiecesToBlocks rank_taking) 2 = pieceCmp rank_taking 2.
Proof.
  split; [vm_compute; reflexivity |]. split; [vm_compute; reflexivity |].
  apply (sweep_pairs_only_the_first_on_a_square rank_taking 0 1 2).
  - apply rank_squares_rendered_once. vm_compute. reflexivity.
  - vm_compute. auto.
  - vm_compute. reflexivity.
  - vm_compute. reflexivity.
  - discriminate.
Defined.

Lemma deferred_move_retries_until_piece_leaves_witness :
  (forall n, run_timers n (setTimeout_move 3 rank_promoted)
             = Ok (setTimeout_move 3 rank_promoted)) /\
  move 9 rank_board = Ok rank_board.
Proof.
  split.
  - apply (proj1 (deferred_move_retries_until_piece_leaves
                    (setTimeout_move 3 rank_promoted) 3 eq_refl)).
    + vm_compute. auto 10.
    + reflexivity.
  - destruct (proj2 (deferred_move_retries_until_piece_leaves rank_board 9 eq_refl))
      as [Hmove _]; [| exact Hmove].
    vm_compute. intros [H | [H | [H | []]]]; discriminate H.
Defined.

Lemma updates_reach_only_the_held_piece_witness :
  dragPiece rank_king_lifted = Some 0 /\
  exists s',
    drag_all two_updates rank_king_lifted = Ok s' /\
    dragPiece s' = Some 0 /\ highlighted s' = highlighted rank_king_lifted /\
    same_pairing rank_king_lifted s' /\
    SVGChessPiece.isDragged (pieceCmp s' 0)
      = SVGChessPiece.isDragged (pieceCmp rank_king_lifted 0) /\
    forall h', h' <> 0 -> pieceCmp s' h' = pieceCmp rank_king_lifted h'.
Proof.
  assert (Hd : dragPiece rank_king_lifted = Some 0) by (vm_compute; reflexivity).
  split; [exact Hd |].
  exact (proj1 (updates_reach_only_the_held_piece two_updates rank_king_lifted) 0 Hd).
Defined.

Lemma touch_drop_resolves_like_mouse_drop_witness :
  dropPiece rank_pointToIndex
    (TouchEnd {| touches := []; changedTouches := [touch_at 240%float 30%float] |})
    rank_king_dragged
  = dropPiece rank_pointToIndex (MouseUp (mouse_at 240%float 30%float)) rank_king_dragged /\
  drop_next rank_pointToIndex
    (TouchEnd {| touches := []; changedTouches := [touch_at 240%float 30%float] |})
    rank_king_dragged
  = drop_next rank_pointToIndex (MouseUp (mouse_at 240%float 30%float)) rank_king_dragged /\
  dropPiece rank_pointToIndex (TouchEnd {| touches := []; changedTouches := [] |})
    rank_king_dragged
  = TypeError.
Proof.
  apply (touch_drop_resolves_like_mouse_drop rank_pointToIndex rank_king_dragged
           [] [] (touch_at 240%float 30%float) (mouse_at 240%float 30%float));
    reflexivity.
Defined.

Lemma onStateChanged_game_over_witness :
  rxWaste rank_started = fresh_subs 0 /\
  rxWaste (onStateChanged CHECKMATE rank_started) = [] /\
  listeners (onStateChanged CHECKMATE rank_started) = [] /\
  banner (onStateChanged CHECKMATE rank_started)
    = Some {| title := "GAME OVER"; message := "White wins!" |}.
Proof.
  assert (Hw : rxWaste rank_started = fresh_subs 0) by (vm_compute; reflexivity).
  assert (Hl : listeners rank_started = fresh_subs 0) by (vm_compute; reflexivity).
  split; [exact Hw |].
  destruct (proj1 (onStateChanged_game_over CHECKMATE rank_started) eq_refl)
    as (Hw' & Hl' & msg & Hb & _ & _ & Hwhite).
  split; [exact Hw' |]. split.
  - apply Hl'. unfold listeners_owned. rewrite Hw, Hl.
    intros l Hin. exists l. now split.
  - rewrite Hb, (Hwhite eq_refl); [reflexivity |]. vm_compute. reflexivity.
Defined.

Lemma mouse_gesture_starts_exactly_when_witness :
  isDisabled rank_king_pressed = false /\
  dragPiece rank_king_pressed = Some 0 /\
  exists s' c,
    mousedrag_flatMap (mouse_at 200%float 30%float) rank_king_pressed
    = Ok (s', stream_moves c).
Proof.
  split; [reflexivity |]. split; [reflexivity |].
  apply (proj2 (proj1 (mouse_gesture_starts_exactly_when
                         (mouse_at 200%float 30%float) rank_king_pressed))).
  split; [reflexivity |]. exists 0. split; [reflexivity |].
  split; [vm_compute; reflexivity |].
  split; vm_compute; discriminate.
Defined.

Lemma mousedown_and_mouseup_throw_exactly_when_witness :
  mousedrag_flatMap (mouse_at 200%float 30%float) rank_detached = TypeError /\
  drop_index rank_pointToIndex (MouseUp (mouse_at 240%float 30%float)) rank_detached
    = TypeError /\
  drop_next rank_pointToIndex (MouseUp (mouse_at 240%float 30%float)) rank_detached
    = TypeError.
Proof.
  destruct (mousedown_and_mouseup_throw_exactly_when rank_pointToIndex
              (mouse_at 200%float 30%float) (mouse_at 240%float 30%float)
              rank_detached) as (Hstart & Hindex & Hdrop).
  split; [| split].
  - apply (proj2 Hstart). split; [reflexivity |]. split.
    + exists 0. split; [reflexivity | vm_compute; reflexivity].
    + split; [reflexivity | left; vm_compute; reflexivity].
  - apply (proj2 Hindex). split; [reflexivity | left; vm_compute; reflexivity].
  - apply (proj2 Hdrop). split; [now exists 0 |].
    split; [reflexivity | left; vm_compute; reflexivity].
Defined.
